(** * api_clients: the Crossref and Scopus provider adapters

    A shallow embedding of [src/api_clients/crossref_client.py] and
    [src/api_clients/scopus_client.py], and the properties of the
    adapters that the specification states.

    Conventions of the embedding.
    - A Python [str] is a Rocq [string] holding its UTF-8 bytes.  Every
      pattern the adapters search for (['?'], ['&'], ['='], ['cursor='],
      ['@'], ['s']) is ASCII, so splitting and searching on bytes agrees
      with splitting and searching on code points.
    - A JSON document (a response body, a YAML file, a parameter value)
      is a [pyval]; it holds no floats.  The request rates, floats in the
      source, are rationals.
    - A Python [dict] is an association list in insertion order with
      pairwise distinct keys ([dict_wf]).
    - A Python function that can raise returns a [result]. *)

From Stdlib Require Import ZArith QArith Lia Ascii.
From stdpp Require Import base option list strings pretty gmap.

Local Open Scope Z_scope.

(** ** Python strings *)

Module Str.

(** [s.startswith(p)] *)
Fixpoint startswith (p s : string) : bool :=
  match p, s with
  | "", _ => true
  | String a p', String b s' => if decide (a = b) then startswith p' s' else false
  | String _ _, "" => false
  end.

(** [sub in s] *)
Fixpoint contains (sub s : string) : bool :=
  startswith sub s ||
  match s with
  | "" => false
  | String _ s' => contains sub s'
  end.

(** [c in s] for a single character *)
Fixpoint mem (c : ascii) (s : string) : bool :=
  match s with
  | "" => false
  | String a s' => if decide (a = c) then true else mem c s'
  end.

(** [s.split(c)]: never empty, one more piece than there are
    separators. *)
Fixpoint split (c : ascii) (s : string) : list string :=
  match s with
  | "" => [""]
  | String a s' =>
      if decide (a = c) then "" :: split c s'
      else match split c s' with
           | p :: ps => String a p :: ps
           | [] => [String a ""]
           end
  end.

(** [s.split(c, 1)]: [(s, None)] when [c] does not occur, else the text
    before the first [c] and the text after it. *)
Fixpoint split1 (c : ascii) (s : string) : string * option string :=
  match s with
  | "" => ("", None)
  | String a s' =>
      if decide (a = c) then ("", Some s')
      else let '(p, r) := split1 c s' in (String a p, r)
  end.

(** [sep.join(l)] *)
Fixpoint join (sep : string) (l : list string) : string :=
  match l with
  | [] => ""
  | [x] => x
  | x :: l' => x +:+ sep +:+ join sep l'
  end.

(** [s.rstrip(c)] for a one-character argument *)
Fixpoint rstrip (c : ascii) (s : string) : string :=
  match s with
  | "" => ""
  | String a s' =>
      match rstrip c s' with
      | "" => if decide (a = c) then "" else String a ""
      | r => String a r
      end
  end.

Definition lower_char (c : ascii) : ascii :=
  let n := nat_of_ascii c in
  if (65 <=? n)%nat && (n <=? 90)%nat then ascii_of_nat (n + 32) else c.

(** [s.lower()], on the ASCII letters *)
Fixpoint lower (s : string) : string :=
  match s with
  | "" => ""
  | String a s' => String (lower_char a) (lower s')
  end.

(** [s.replace(a, b)] for single characters *)
Fixpoint replace (a b : ascii) (s : string) : string :=
  match s with
  | "" => ""
  | String c s' => String (if decide (c = a) then b else c) (replace a b s')
  end.

End Str.

(** ** Python values, exceptions and dictionaries *)

#[local] Set Warnings "-register-all".

Inductive pyval : Type :=
  | PNone
  | PBool (b : bool)
  | PInt (n : Z)
  | PStr (s : string)
  | PList (l : list pyval)
  | PDict (d : list (string * pyval)).

Inductive exn : Type :=
  | ValueError (msg : string)
  | KeyError (key : string)
  | TypeError (msg : string)
  | AttributeError (msg : string)
  | OverflowError (msg : string)
  | ZeroDivisionError (msg : string)
  | OSError (msg : string)
  | YAMLError (msg : string).

Inductive result (A : Type) : Type :=
  | Ok (a : A)
  | Raise (e : exn).
Arguments Ok {A} a.
Arguments Raise {A} e.

Global Instance result_ret : MRet result := @Ok.
Global Instance result_bind : MBind result := λ A B k r,
  match r with
  | Ok a => k a
  | Raise e => Raise e
  end.

Abbreviation dict V := (list (string * V)) (only parsing).

Section dict.
Context {V : Type}.

(** [d.get(k)] / [d[k]] *)
Fixpoint dict_get (k : string) (d : dict V) : option V :=
  match d with
  | [] => None
  | (k', v) :: d' => if decide (k' = k) then Some v else dict_get k d'
  end.

(** [k in d] *)
Definition dict_in (k : string) (d : dict V) : bool :=
  match dict_get k d with Some _ => true | None => false end.

(** [d[k] = v]: an existing key keeps its position, a new key goes to
    the end. *)
Fixpoint dict_set (k : string) (v : V) (d : dict V) : dict V :=
  match d with
  | [] => [(k, v)]
  | (k', v') :: d' =>
      if decide (k' = k) then (k, v) :: d' else (k', v') :: dict_set k v d'
  end.

(** [{**a, **b}] *)
Definition dict_merge (a b : dict V) : dict V :=
  foldl (λ acc kv, dict_set kv.1 kv.2 acc) a b.

Definition dict_wf (d : dict V) : Prop := NoDup d.*1.
End dict.

(** [bool(v)] *)
Definition truthy (v : pyval) : bool :=
  match v with
  | PNone => false
  | PBool b => b
  | PInt n => negb (n =? 0)
  | PStr s => negb (bool_decide (s = ""))
  | PList l => match l with [] => false | _ => true end
  | PDict d => match d with [] => false | _ => true end
  end.

(** [v == s] for a string literal [s]: only a [str] equals a [str]. *)
Definition eq_str (v : pyval) (s : string) : bool :=
  match v with
  | PStr s' => bool_decide (s' = s)
  | _ => false
  end.

Definition is_none (v : pyval) : bool :=
  match v with PNone => true | _ => false end.

(** [v.get(k, default)]: only a dict has the method. *)
Definition py_get (v : pyval) (k : string) (dflt : pyval) : result pyval :=
  match v with
  | PDict d => Ok (default dflt (dict_get k d))
  | _ => Raise (AttributeError "object has no attribute 'get'")
  end.

(** [d[k]] *)
Definition dict_item {V} (k : string) (d : dict V) : result V :=
  match dict_get k d with
  | Some v => Ok v
  | None => Raise (KeyError k)
  end.

(** [len(v)] *)
Definition py_len (v : pyval) : result Z :=
  match v with
  | PStr s => Ok (Z.of_nat (String.length s))
  | PList l => Ok (Z.of_nat (length l))
  | PDict d => Ok (Z.of_nat (length d))
  | _ => Raise (TypeError "object has no len()")
  end.

(** *** [int(s)] on a string

    Surrounding white space is dropped, a sign may lead, and the digits
    may be grouped by single underscores.  (The digits and spaces outside
    ASCII that Python also accepts are left out.) *)

Definition is_space (c : ascii) : bool :=
  let n := nat_of_ascii c in
  ((9 <=? n)%nat && (n <=? 13)%nat) || (28 <=? n)%nat && (n <=? 32)%nat.

Fixpoint lstrip (s : string) : string :=
  match s with
  | String c s' => if is_space c then lstrip s' else s
  | "" => ""
  end.

Fixpoint rstrip (s : string) : string :=
  match s with
  | "" => ""
  | String a s' =>
      match rstrip s' with
      | "" => if is_space a then "" else String a ""
      | r => String a r
      end
  end.

Definition digit_of (c : ascii) : option Z :=
  let n := nat_of_ascii c in
  if (48 <=? n)%nat && (n <=? 57)%nat then Some (Z.of_nat n - 48) else None.

(** [sep] tells that the previous character was not a digit, so that an
    underscore or the end of the text is not allowed next. *)
Fixpoint digits_go (acc : Z) (sep : bool) (s : string) : option Z :=
  match s with
  | "" => if sep then None else Some acc
  | String c s' =>
      if decide (c = "_"%char) then
        if sep then None else digits_go acc true s'
      else
        match digit_of c with
        | Some d => digits_go (10 * acc + d) false s'
        | None => None
        end
  end.

Definition int_literal (s : string) : option Z :=
  match rstrip (lstrip s) with
  | String "-" s' => Z.opp <$> digits_go 0 true s'
  | String "+" s' => digits_go 0 true s'
  | s' => digits_go 0 true s'
  end.

Definition int_of_str (s : string) : result Z :=
  match int_literal s with
  | Some n => Ok n
  | None => Raise (ValueError "invalid literal for int() with base 10")
  end.

(** [int(v)] *)
Definition py_int (v : pyval) : result Z :=
  match v with
  | PInt n => Ok n
  | PBool b => Ok (if b then 1 else 0)
  | PStr s => int_of_str s
  | _ => Raise (TypeError "int() argument must be a string or a real number")
  end.

(** *** [str(v)] and [repr(v)] *)

Definition hex_digit_lower (n : nat) : ascii :=
  match n with
  | 0 => "0" | 1 => "1" | 2 => "2" | 3 => "3" | 4 => "4" | 5 => "5"
  | 6 => "6" | 7 => "7" | 8 => "8" | 9 => "9" | 10 => "a" | 11 => "b"
  | 12 => "c" | 13 => "d" | 14 => "e" | _ => "f"
  end%char%nat.

Definition backslash : ascii := ascii_of_nat 92.
Definition dquote : ascii := ascii_of_nat 34.
Definition squote : ascii := ascii_of_nat 39.

(** One character of [repr] of a string delimited by [q]. *)
Definition repr_char (q c : ascii) : string :=
  let n := nat_of_ascii c in
  let esc (x : string) := String backslash x in
  if decide (c = q) then esc (String c "")
  else if decide (c = backslash) then esc (String backslash "")
  else if decide (n = 10%nat) then esc "n"
  else if decide (n = 13%nat) then esc "r"
  else if decide (n = 9%nat) then esc "t"
  else if (n <? 32)%nat || bool_decide (n = 127%nat) then
    esc (String "x" (String (hex_digit_lower (n / 16))
                       (String (hex_digit_lower (n mod 16)) "")))
  else String c "".

Fixpoint repr_chars (q : ascii) (s : string) : string :=
  match s with
  | "" => ""
  | String c s' => repr_char q c +:+ repr_chars q s'
  end.

(** Python delimits by a single quote, unless the text has a single
    quote and no double quote. *)
Definition repr_str (s : string) : string :=
  let q : ascii :=
    if Str.mem squote s && negb (Str.mem dquote s) then dquote else squote in
  String q (repr_chars q s) +:+ String q "".

Fixpoint py_repr (v : pyval) : string :=
  match v with
  | PNone => "None"
  | PBool true => "True"
  | PBool false => "False"
  | PInt n => pretty n
  | PStr s => repr_str s
  | PList l => "[" +:+ Str.join ", " (map py_repr l) +:+ "]"
  | PDict d =>
      "{" +:+ Str.join ", "
                (map (λ kv, repr_str kv.1 +:+ ": " +:+ py_repr kv.2) d) +:+ "}"
  end.

(** [str(v)], also what an f-string field [{v}] shows *)
Definition py_str (v : pyval) : string :=
  match v with
  | PStr s => s
  | _ => py_repr v
  end.

(** ** Effects: the object a method mutates, its log, its exceptions *)

Inductive log_entry : Type :=
  | LogDebug (msg : string)
  | LogInfo (msg : string)
  | LogWarning (msg : string)
  | LogError (msg : string)
  | Printed (msg : string).

(** A method over an object of type [S]: it returns or raises, and in
    both cases leaves the object and the log as they were at that time. *)
Definition M (S A : Type) : Type :=
  S → list log_entry → result A * S * list log_entry.

Global Instance M_ret {S} : MRet (M S) := λ A a s l, (Ok a, s, l).
Global Instance M_bind {S} : MBind (M S) := λ A B k m s l,
  match m s l with
  | (Ok a, s', l') => k a s' l'
  | (Raise e, s', l') => (Raise e, s', l')
  end.

Definition read {S} : M S S := λ s l, (Ok s, s, l).
Definition modify {S} (f : S → S) : M S unit := λ s l, (Ok (), f s, l).
Definition lift {S A} (r : result A) : M S A := λ s l, (r, s, l).
Definition emit {S} (e : log_entry) : M S unit := λ s l, (Ok (), s, l ++ [e]).

(** [try: body  except (handled...) as e: handler(e)] *)
Definition try_except {S A} (body : M S A) (handled : exn → bool)
    (handler : exn → M S A) : M S A := λ s l,
  match body s l with
  | (Raise e, s', l') =>
      if handled e then handler e s' l' else (Raise e, s', l')
  | r => r
  end.

Definition is_ValueError (e : exn) : bool :=
  match e with ValueError _ => true | _ => false end.
Definition is_KeyError (e : exn) : bool :=
  match e with KeyError _ => true | _ => false end.

(** [when c: m] *)
Definition when {S} (c : bool) (m : M S unit) : M S unit :=
  if c then m else mret ().

(** ** [urllib.parse]: the query-string codec the adapters call

    [quote_plus] and [urlencode] are called by the adapters;
    [unquote_plus] and [parse_qsl] are their inverses in the same library
    and are what "the parameters of a URL" means below.  All of them
    work on the UTF-8 bytes; where Python would replace a decoded byte
    sequence that is not UTF-8 by U+FFFD, the bytes are kept. *)

Module Url.

(** The bytes [quote] never escapes: letters, digits and [_.-~]. *)
Definition always_safe (c : ascii) : bool :=
  let n := nat_of_ascii c in
  ((65 <=? n)%nat && (n <=? 90)%nat) || ((97 <=? n)%nat && (n <=? 122)%nat)
  || ((48 <=? n)%nat && (n <=? 57)%nat)
  || bool_decide (c = "_"%char) || bool_decide (c = "."%char)
  || bool_decide (c = "-"%char) || bool_decide (c = "~"%char).

Definition hex_digit (n : nat) : ascii :=
  match n with
  | 0 => "0" | 1 => "1" | 2 => "2" | 3 => "3" | 4 => "4" | 5 => "5"
  | 6 => "6" | 7 => "7" | 8 => "8" | 9 => "9" | 10 => "A" | 11 => "B"
  | 12 => "C" | 13 => "D" | 14 => "E" | _ => "F"
  end%char%nat.

Definition hex_value (c : ascii) : option nat :=
  let n := nat_of_ascii c in
  if (48 <=? n)%nat && (n <=? 57)%nat then Some (n - 48)%nat
  else if (65 <=? n)%nat && (n <=? 70)%nat then Some (n - 55)%nat
  else if (97 <=? n)%nat && (n <=? 102)%nat then Some (n - 87)%nat
  else None.

Definition quote_char (c : ascii) : string :=
  if always_safe c then String c ""
  else if decide (c = " "%char) then "+"
  else String "%" (String (hex_digit (nat_of_ascii c / 16))
                     (String (hex_digit (nat_of_ascii c mod 16)) "")).

(** [quote_plus(s)] *)
Fixpoint quote_plus (s : string) : string :=
  match s with
  | "" => ""
  | String c s' => quote_char c +:+ quote_plus s'
  end.

(** [urlencode(d)]: keys and values go through [str] and
    [quote_plus]. *)
Definition urlencode (d : dict pyval) : string :=
  Str.join "&"
    (map (λ kv, quote_plus kv.1 +:+ "=" +:+ quote_plus (py_str kv.2)) d).

(** [unquote(s)]: a [%] followed by two hex digits is one byte, any
    other [%] stands for itself. *)
Fixpoint unquote (s : string) : string :=
  match s with
  | "" => ""
  | String c s' =>
      let literal := String c (unquote s') in
      if decide (c = "%"%char) then
        match s' with
        | String h (String l s'') =>
            match hex_value h, hex_value l with
            | Some x, Some y =>
                String (ascii_of_nat (16 * x + y)) (unquote s'')
            | _, _ => literal
            end
        | _ => literal
        end
      else literal
  end.

(** [unquote_plus(s)] *)
Definition unquote_plus (s : string) : string :=
  unquote (Str.replace "+" " " s).

Definition parse_pair (piece : string) : string * string :=
  let '(name, value) := Str.split1 "=" piece in
  (unquote_plus name, unquote_plus (default "" value)).

(** [parse_qsl(qs, keep_blank_values=True)] *)
Definition parse_qsl (qs : string) : list (string * string) :=
  map parse_pair (filter (λ piece, piece ≠ "") (Str.split "&" qs)).

(** [urlsplit(url).query]: what follows the first [?], the fragment
    left out. *)
Definition query (url : string) : string :=
  default "" (Str.split1 "?" (Str.split1 "#" url).1).2.

(** The values of the parameters called [name], in order. *)
Definition values_of (name : string) (qs : string) : list string :=
  (filter (λ kv, kv.1 = name) (parse_qsl qs)).*2.

Definition param_values (name url : string) : list string :=
  values_of name (query url).

End Url.

(** ** The rate limiter state *)

(** Modelled from the spec: the base class [RateLimiter] of
    [base_client.py] is not among the sources.  The spec's
    RateLimiterState holds the provider-reported limit, remaining quota
    and reset time "when available", so each of them is optional. *)
Record RateLimiter : Type := mkRateLimiter {
  api_rate_limit : option Z;
  api_remaining : option Z;
  api_reset_time : option Z
}.

(** [a / b] on ints: the quotient as a float, here the rational it
    rounds.  Python raises [ZeroDivisionError] for [b = 0] and
    [OverflowError] when the quotient rounds to a float beyond the largest
    finite one, that is from [2^1024 - 2^970] on. *)
Definition int_truediv (a b : Z) : result Q :=
  if b =? 0 then Raise (ZeroDivisionError "division by zero")
  else if (2 ^ 1024 - 2 ^ 970) * Z.abs b <=? Z.abs a
  then Raise (OverflowError "integer division result too large for a float")
  else Ok (Qmake (a * Z.sgn b) (Z.to_pos (Z.abs b))).

(** [self.api_rate_limit / b]: [None] has no division. *)
Definition opt_truediv (a : option Z) (b : Z) : result Q :=
  match a with
  | Some a => int_truediv a b
  | None => Raise (TypeError "unsupported operand type(s) for /: 'NoneType' and 'int'")
  end.

(** [datetime.datetime.fromtimestamp(t)] for an int [t], as the library
    documents it: [OverflowError] outside the platform's [time_t] (64
    bits), [ValueError] for a year outside 1..9999.  The date is kept as
    its time stamp. *)
Definition fromtimestamp (t : Z) : result Z :=
  if (t <? - 2 ^ 63) || (2 ^ 63 <=? t)
  then Raise (OverflowError "timestamp out of range for platform time_t")
  else if (t <? -62135596800) || (253402300799 <? t)
  then Raise (ValueError "year is out of range")
  else Ok t.

(** ** crossref_client.py *)

Record CrossrefConfig : Type := mkCrossrefConfig {
  cr_mailto : string;
  cr_base_url : string;
  cr_requests_per_second : Q;
  cr_burst_size : Z;
  cr_max_results_per_query : Z;
  cr_max_retries : Z;
  cr_rows_per_page : Z;
  cr_default_params : dict pyval
}.

Module CrossrefConfig.
(** [if not self.default_params: self.default_params = {'rows': ...}] *)
Definition __post_init__ (self : CrossrefConfig) : CrossrefConfig :=
  match cr_default_params self with
  | [] => mkCrossrefConfig (cr_mailto self) (cr_base_url self)
            (cr_requests_per_second self) (cr_burst_size self)
            (cr_max_results_per_query self) (cr_max_retries self)
            (cr_rows_per_page self) [("rows", PInt (cr_rows_per_page self))]
  | _ => self
  end.
End CrossrefConfig.

Module CrossrefRateLimiter.

Definition set_api_rate_limit (n : Z) (self : RateLimiter) : RateLimiter :=
  mkRateLimiter (Some n) (api_remaining self) (api_reset_time self).

(** The [try] block of [update_from_headers]. *)
Definition update_body (headers : dict string) : M RateLimiter unit :=
  when (dict_in "X-Rate-Limit-Limit" headers) (
    v ← lift (dict_item "X-Rate-Limit-Limit" headers);
    n ← lift (int_of_str v);
    modify (set_api_rate_limit n));;
  when (dict_in "X-Rate-Limit-Interval" headers) (
    v ← lift (dict_item "X-Rate-Limit-Interval" headers);
    interval_seconds ← lift (int_of_str (Str.rstrip "s" v));
    when (0 <? interval_seconds) (
      self ← read;
      rate ← lift (opt_truediv (api_rate_limit self) interval_seconds);
      emit (LogDebug "Crossref rate limit"))).

Definition update_from_headers (headers : dict string) : M RateLimiter unit :=
  try_except (update_body headers)
    (λ e, is_ValueError e || is_KeyError e)
    (λ e, emit (LogWarning "Error parsing Crossref rate limit headers")).

End CrossrefRateLimiter.

Module CrossrefSearchClient.

(** [_setup_session] works on [self.session.headers]. *)
Definition _setup_session (config : CrossrefConfig) : M (dict string) unit :=
  let user_agent := "api_clients/1.0" in
  let user_agent :=
    if truthy (PStr (cr_mailto config))
    then user_agent +:+ " (mailto:" +:+ cr_mailto config +:+ ")"
    else user_agent in
  modify (λ headers,
    dict_merge headers
      [("User-Agent", user_agent); ("Accept", "application/json")]);;
  if truthy (PStr (cr_mailto config))
  then emit (LogInfo ("Crossref client using polite pool (mailto: "
                      +:+ cr_mailto config +:+ ")"))
  else emit (LogWarning
               "No mailto provided - using public pool (slower rate limits)").

Definition url_params (config : CrossrefConfig) (query : string)
    (params : option (dict pyval)) : dict pyval :=
  let url_params := dict_merge (cr_default_params config) (default [] params) in
  let url_params := dict_set "query" (PStr query) url_params in
  let url_params :=
    if truthy (PStr (cr_mailto config)) && negb (dict_in "mailto" url_params)
    then dict_set "mailto" (PStr (cr_mailto config)) url_params
    else url_params in
  if negb (dict_in "cursor" url_params)
  then dict_set "cursor" (PStr "*") url_params
  else url_params.

Definition _build_search_url (config : CrossrefConfig) (query : string)
    (params : option (dict pyval)) : string :=
  let param_str := Url.urlencode (url_params config query params) in
  cr_base_url config +:+ "?" +:+ param_str.

Definition _parse_page_response (response_data : dict pyval) (page : Z)
    : result (dict pyval) :=
  if dict_in "status" response_data
     && negb (eq_str (default PNone (dict_get "status" response_data)) "ok")
  then
    Ok [("page", PInt page); ("total_results", PInt 0); ("results", PNone);
        ("error", default (PStr "unknown_error")
                    (dict_get "message-type" response_data))]
  else if negb (dict_in "message" response_data) then
    Ok [("page", PInt page); ("total_results", PInt 0); ("results", PNone);
        ("error", PStr "no_message")]
  else
    message ← dict_item "message" response_data;
    total_results ← py_get message "total-results" (PInt 0);
    items ← py_get message "items" (PList []);
    cursor ← py_get message "next-cursor" PNone;
    Ok [("page", PInt page); ("total_results", total_results);
        ("results", items); ("cursor", cursor)].

(** [base, params = current_url.split('?', 1)] and the rewrite that
    follows it. *)
Definition remove_cursor (current_url : string) : result string :=
  match Str.split1 "?" current_url with
  | (base, Some params) =>
      let param_parts := Str.split "&" params in
      let param_parts :=
        filter (λ p, ¬ Str.startswith "cursor=" p) param_parts in
      Ok (base +:+ "?" +:+ Str.join "&" param_parts)
  | (_, None) =>
      Raise (ValueError "not enough values to unpack (expected 2, got 1)")
  end.

Definition _get_next_page_url (response_data : dict pyval)
    (current_url : string) : result (option string) :=
  if negb (dict_in "message" response_data) then Ok None
  else
    message ← dict_item "message" response_data;
    next_cursor ← py_get message "next-cursor" PNone;
    items ← py_get message "items" (PList []);
    empty ← (if negb (truthy items) then Ok true
             else n ← py_len items; Ok (n =? 0));
    if (empty : bool) then Ok None
    else if truthy next_cursor then
      current_url ←
        (if Str.contains "cursor=" current_url
         then remove_cursor current_url
         else Ok current_url);
      Ok (Some (current_url +:+ "&cursor=" +:+ py_str next_cursor))
    else Ok None.

End CrossrefSearchClient.

(** The files [_load_email] and [_load_api_key] look at: a path is
    absent, or opening and parsing it raises, or it parses to a
    document. *)
Inductive file_state : Type :=
  | Absent
  | Unreadable (e : exn)
  | Yaml (doc : pyval).

Record Env : Type := mkEnv {
  home : string;
  file : string → file_state
}.

(** [Path(dir).expanduser()] for [~] and [~/...] *)
Definition expanduser (env : Env) (dir : string) : string :=
  match dir with
  | String "~" "" => home env
  | String "~" (String "/" rest) => home env +:+ "/" +:+ rest
  | _ => dir
  end.

(** [path.exists()] *)
Definition path_exists (env : Env) (path : string) : bool :=
  match file env path with Absent => false | _ => true end.

(** [yaml.safe_load(open(path))] *)
Definition load_yaml (env : Env) (path : string) : result pyval :=
  match file env path with
  | Yaml doc => Ok doc
  | Unreadable e => Raise e
  | Absent => Raise (OSError "No such file or directory")
  end.

(** How the body of a loop ends: it returns from the function, or falls
    through to the next iteration. *)
Inductive flow (A : Type) : Type :=
  | Return (a : A)
  | Next.
Arguments Return {A} a.
Arguments Next {A}.

(** [for x in v]: a list gives its elements, a dict its keys, a string
    its characters; nothing else can be iterated. *)
Definition py_iter (v : pyval) : result (list pyval) :=
  match v with
  | PList l => Ok l
  | PDict d => Ok (map (λ kv, PStr kv.1) d)
  | PStr s => Ok (map (λ c, PStr (String c "")) (String.list_ascii_of_string s))
  | _ => Raise (TypeError "object is not iterable")
  end.

(** [v[k]] on a value *)
Definition py_item (v : pyval) (k : string) : result pyval :=
  match v with
  | PDict d => dict_item k d
  | _ => Raise (TypeError "indices must be integers")
  end.

(** [k in v]: a key of a dict, an element of a list, a substring of a
    string; nothing else has members. *)
Definition py_contains (v : pyval) (k : string) : result bool :=
  match v with
  | PDict d => Ok (dict_in k d)
  | PList l => Ok (existsb (λ x, eq_str x k) l)
  | PStr s => Ok (Str.contains k s)
  | _ => Raise (TypeError "argument is not iterable")
  end.

(** What the adapters read of a [requests.Response]: [r.ok],
    [r.status_code] and [r.json()], which raises on a body that is not
    JSON. *)
Record Response : Type := mkResponse {
  resp_ok : bool;
  resp_status_code : Z;
  resp_json : result pyval
}.

(** [bool(response)] for a response or [None]: a response is true when
    it is [ok]. *)
Definition response_truthy (response : option Response) : bool :=
  match response with
  | Some r => resp_ok r
  | None => false
  end.

Module CrossrefSearchFetcher.

(** The keyword arguments that [__init__] reads, [None] for one the
    caller did not pass. *)
Record kwargs : Type := mkKwargs {
  kw_requests_per_second : option Q;
  kw_max_hits : option Z;
  kw_max_results_per_query : option Z;
  kw_max_retries : option Z;
  kw_rows_per_page : option Z
}.

(** The [try] block of [_load_email] for one existing path. *)
Definition load_email_body {S} (env : Env) (path : string)
    : M S (flow (option string)) :=
  key_data ← lift (load_yaml env path);
  if is_none key_data then
    emit (LogInfo ("Found " +:+ path +:+ " but it's empty - using public pool"));;
    mret (Return None)
  else
    mailto ← lift (py_get key_data "mailto" PNone);
    email ← (if truthy mailto then mret mailto
             else lift (py_get key_data "email" PNone));
    match email with
    | PStr e =>
        if truthy email && Str.mem "@" e then
          emit (LogInfo ("Loaded Crossref email from " +:+ path));;
          mret (Return (Some e))
        else if bool_decide (e = "") then
          emit (LogInfo ("Found " +:+ path +:+ " with empty email - using public pool"));;
          mret (Return None)
        else mret Next
    | PNone =>
        emit (LogInfo ("Found " +:+ path +:+ " with empty email - using public pool"));;
        mret (Return None)
    | _ => mret Next
    end.

(** [for path in key_paths: ...] and what follows the loop. *)
Fixpoint load_email_loop {S} (env : Env) (key_paths : list string)
    : M S (option string) :=
  match key_paths with
  | [] =>
      emit (LogInfo "No crossref.yaml found - using public pool (works fine, just slower)");;
      mret None
  | path :: rest =>
      if path_exists env path then
        r ← try_except (load_email_body env path) (λ _, true)
              (λ e, emit (LogWarning ("Error loading " +:+ path));; mret Next);
        match r with
        | Return v => mret v
        | Next => load_email_loop env rest
        end
      else load_email_loop env rest
  end.

Definition key_paths (env : Env) (api_key_dir : string) : list string :=
  ["crossref.yaml"; expanduser env api_key_dir +:+ "/crossref.yaml"].

Definition _load_email {S} (env : Env) (api_key_dir : string)
    : M S (option string) :=
  load_email_loop env (key_paths env api_key_dir).

(** [if mailto:] on an [Optional[str]] *)
Definition given (mailto : option string) : bool :=
  match mailto with
  | Some m => truthy (PStr m)
  | None => false
  end.

(** [__init__] up to the configuration it builds; the client, the cache
    and the base class are set up from it by code outside these
    sources.  [default_params] is not passed, so [__post_init__] fills
    it in. *)
Definition __init__ {S} (env : Env) (mailto : option string)
    (api_key_dir : string) (kw : kwargs) : M S CrossrefConfig :=
  mailto ← match mailto with
           | None => _load_email env api_key_dir
           | Some m => mret (Some m)
           end;
  default_rate ←
    (if given mailto then mret (10 : Q)
     else
       emit (LogWarning "No email provided - using public pool (slower). Consider adding email to crossref.yaml");;
       mret (1 : Q));
  mret (CrossrefConfig.__post_init__
          (mkCrossrefConfig
             (if given mailto then default "" mailto else "")
             "https://api.crossref.org/works"
             (default default_rate (kw_requests_per_second kw))
             20
             (default (default 10000 (kw_max_results_per_query kw))
                (kw_max_hits kw))
             (default 3 (kw_max_retries kw))
             (default 100 (kw_rows_per_page kw))
             [])).

(** The call [self.fetch(query, force_refresh=force_refresh, **params)]
    that [search_with_filters] ends in. *)
Record fetch_call : Type := mkFetchCall {
  fc_query : string;
  fc_force_refresh : bool;
  fc_params : dict pyval
}.

(** One pass of [for key, value in filters.items()]. *)
Definition filter_step (filter_strs : list string) (kv : string * pyval)
    : list string :=
  let value :=
    match kv.2 with
    | PBool _ => PStr (Str.lower (py_str kv.2))
    | v => v
    end in
  filter_strs ++ [kv.1 +:+ ":" +:+ py_str value].

Definition search_with_filters (query : string)
    (filters : option (dict pyval)) (force_refresh : bool)
    (kwargs : dict pyval) : fetch_call :=
  let params := kwargs in
  let params :=
    if truthy (PDict (default [] filters)) then
      let filter_strs := foldl filter_step [] (default [] filters) in
      match filter_strs with
      | [] => params
      | _ => dict_set "filter" (PStr (Str.join "," filter_strs)) params
      end
    else params in
  mkFetchCall query force_refresh params.

(** The URL [search_by_doi] asks for. *)
Definition doi_url (config : CrossrefConfig) (doi : string) : string :=
  let url := "https://api.crossref.org/works/" +:+ doi in
  if truthy (PStr (cr_mailto config))
  then url +:+ "?mailto=" +:+ cr_mailto config
  else url.

(** The [try] block of [search_by_doi]; [_make_request] is the method of
    the base client, which is not among the sources, and is taken as it
    comes. *)
Definition search_by_doi_body {S} (_make_request : string → M S (option Response))
    (url : string) : M S (flow pyval) :=
  response ← _make_request url;
  match response with
  | Some r =>
      if response_truthy response && resp_ok r then
        data ← lift (resp_json r);
        has_message ← lift (py_contains data "message");
        if (has_message : bool) then
          message ← lift (py_item data "message");
          mret (Return message)
        else mret Next
      else mret Next
  | None => mret Next
  end.

Definition search_by_doi {S} (config : CrossrefConfig)
    (_make_request : string → M S (option Response)) (doi : string)
    : M S pyval :=
  r ← try_except (search_by_doi_body _make_request (doi_url config doi))
        (λ _, true)
        (λ e, emit (LogError ("Error fetching DOI " +:+ doi));; mret Next);
  match r with
  | Return message => mret message
  | Next => mret PNone
  end.

End CrossrefSearchFetcher.

(** The convenience functions build a fetcher and call its [fetch]; the
    fetch itself is the base class's.  They are given by the
    configuration of that fetcher and the call. *)
Definition search_by_title {S} (env : Env) (title mailto : string)
    (kw : CrossrefSearchFetcher.kwargs)
    : M S (CrossrefConfig * CrossrefSearchFetcher.fetch_call) :=
  config ← CrossrefSearchFetcher.__init__ env (Some mailto)
              "~/Documents/dh4pmp/api_keys" kw;
  mret (config,
        CrossrefSearchFetcher.mkFetchCall ("query.title=" +:+ title) false []).

Definition search_by_author {S} (env : Env) (author mailto : string)
    (kw : CrossrefSearchFetcher.kwargs)
    : M S (CrossrefConfig * CrossrefSearchFetcher.fetch_call) :=
  config ← CrossrefSearchFetcher.__init__ env (Some mailto)
              "~/Documents/dh4pmp/api_keys" kw;
  mret (config,
        CrossrefSearchFetcher.mkFetchCall ("query.author=" +:+ author) false []).

(** ** scopus_client.py *)

Record ScopusConfig : Type := mkScopusConfig {
  sc_api_key : string;
  sc_base_url : string;
  sc_view : string;
  sc_requests_per_second : Q;
  sc_burst_size : Z;
  sc_max_results_per_query : Z;
  sc_max_retries : Z;
  sc_default_params : dict pyval
}.

Module ScopusConfig.
(** [if not self.default_params: self.default_params = {'count': 25}] *)
Definition __post_init__ (self : ScopusConfig) : ScopusConfig :=
  match sc_default_params self with
  | [] => mkScopusConfig (sc_api_key self) (sc_base_url self) (sc_view self)
            (sc_requests_per_second self) (sc_burst_size self)
            (sc_max_results_per_query self) (sc_max_retries self)
            [("count", PInt 25)]
  | _ => self
  end.
End ScopusConfig.

Module ScopusRateLimiter.

Definition set_api_rate_limit (n : Z) (self : RateLimiter) : RateLimiter :=
  mkRateLimiter (Some n) (api_remaining self) (api_reset_time self).
Definition set_api_remaining (n : Z) (self : RateLimiter) : RateLimiter :=
  mkRateLimiter (api_rate_limit self) (Some n) (api_reset_time self).
Definition set_api_reset_time (t : Z) (self : RateLimiter) : RateLimiter :=
  mkRateLimiter (api_rate_limit self) (api_remaining self) (Some t).

(** The [try] block of [update_from_headers]. *)
Definition update_body (headers : dict string) : M RateLimiter unit :=
  when (dict_in "X-RateLimit-Limit" headers) (
    v ← lift (dict_item "X-RateLimit-Limit" headers);
    n ← lift (int_of_str v);
    modify (set_api_rate_limit n));;
  when (dict_in "X-RateLimit-Remaining" headers) (
    v ← lift (dict_item "X-RateLimit-Remaining" headers);
    n ← lift (int_of_str v);
    modify (set_api_remaining n);;
    when (n `mod` 100 =? 0) (emit (LogInfo "Scopus API rate limit")));;
  when (dict_in "X-RateLimit-Reset" headers) (
    v ← lift (dict_item "X-RateLimit-Reset" headers);
    n ← lift (int_of_str v);
    t ← lift (fromtimestamp n);
    modify (set_api_reset_time t)).

Definition update_from_headers (headers : dict string) : M RateLimiter unit :=
  try_except (update_body headers)
    (λ e, is_ValueError e || is_KeyError e)
    (λ e, emit (LogWarning "Error parsing Scopus rate limit headers")).

End ScopusRateLimiter.

Module ScopusSearchClient.

Definition _setup_session (config : ScopusConfig) : M (dict string) unit :=
  if negb (truthy (PStr (sc_api_key config))) then
    lift (Raise (ValueError
      "Scopus API key is required. Set it in the config or load from scopus.yaml file. Get your API key from: https://dev.elsevier.com/"))
  else
    modify (λ headers,
      dict_merge headers
        [("Accept", "application/json"); ("X-ELS-APIKey", sc_api_key config)]);;
    emit (Printed "session headers").

Definition _build_search_url (config : ScopusConfig) (query : string)
    (params : option (dict pyval)) : string :=
  let url_params := dict_merge (sc_default_params config) (default [] params) in
  let param_str :=
    Str.join "&" (map (λ kv, kv.1 +:+ "=" +:+ py_str kv.2) url_params) in
  sc_base_url config +:+ "?query=" +:+ Url.quote_plus query
    +:+ "&view=" +:+ sc_view config +:+ "&" +:+ param_str.

Definition _parse_page_response (response_data : dict pyval) (page : Z)
    : result (dict pyval) :=
  if dict_in "error" response_data then
    Ok [("page", PInt page); ("total_results", PInt 0); ("results", PNone);
        ("error", default PNone (dict_get "error" response_data))]
  else if negb (dict_in "search-results" response_data) then
    Ok [("page", PInt page); ("total_results", PInt 0); ("results", PNone);
        ("error", PStr "no_search_results")]
  else
    search_results ← dict_item "search-results" response_data;
    total ← py_get search_results "opensearch:totalResults" (PInt 0);
    total_results ← py_int total;
    entries ← py_get search_results "entry" (PList []);
    Ok [("page", PInt page); ("total_results", PInt total_results);
        ("results", entries); ("cursor", PNone)].

(** [[link for link in links if link.get('@ref') == 'next']] *)
Fixpoint next_links (links : list pyval) : result (list pyval) :=
  match links with
  | [] => Ok []
  | link :: rest =>
      ref ← py_get link "@ref" PNone;
      more ← next_links rest;
      Ok (if eq_str ref "next" then link :: more else more)
  end.

Definition _get_next_page_url (response_data : dict pyval)
    (current_url : string) : result (option pyval) :=
  if negb (dict_in "search-results" response_data) then Ok None
  else
    search_results ← dict_item "search-results" response_data;
    links ← py_get search_results "link" (PList []);
    links ← py_iter links;
    next_links ← next_links links;
    match next_links with
    | first :: _ => href ← py_item first "@href"; Ok (Some href)
    | [] => Ok None
    end.

End ScopusSearchClient.

(** ** The cache and its rows *)

(** Modelled from the spec: a row of a stored result, with the spec's
    fixed columns (identifier, page index, declared total hit count,
    payload or null, error tag or null). *)
Record row : Type := mkRow {
  row_ID : string;
  row_page : Z;
  row_num_hits : Z;
  row_data : option pyval;
  row_error : option pyval
}.

Definition DataFrame : Type := list row.

(** Modelled from the spec: the class [LocalCache] of [local_cache.py] is
    not among the sources.  The spec's CacheStore is a query-keyed store
    with [get(queryKey) -> rows or absent], [delete(queryKey)] and
    [listKeys()], where [get] treats an entry past its maximum age, or
    one that cannot be read, as absent; the map holds the entries that
    [get] still serves. *)
Module LocalCache.
Definition get (query : string) : M (gmap string DataFrame) (option DataFrame) :=
  cache ← read; mret (cache !! query).
Definition delete (query : string) : M (gmap string DataFrame) unit :=
  modify (base.delete query).
Definition list_queries : M (gmap string DataFrame) (list string) :=
  cache ← read; mret (map_to_list cache).*1.
End LocalCache.

Module ScopusSearchFetcher.

(** [data[(data['data'].isna()) & (data['num_hits'] > max)]] *)
Definition problematic (max_results_per_query : Z) (data : DataFrame)
    : DataFrame :=
  filter (λ r, row_data r = None ∧ max_results_per_query < row_num_hits r)
    data.

(** [for item in ...:] with the counter [removed] *)
Fixpoint clean_loop (config : ScopusConfig) (items : list string)
    (removed : Z) : M (gmap string DataFrame) Z :=
  match items with
  | [] => mret removed
  | item :: rest =>
      data ← LocalCache.get item;
      match data with
      | Some data =>
          if 0 <? Z.of_nat
               (length (problematic (sc_max_results_per_query config) data))
          then LocalCache.delete item;; clean_loop config rest (removed + 1)
          else clean_loop config rest removed
      | None => clean_loop config rest removed
      end
  end.

Definition clean_max_hits (config : ScopusConfig)
    : M (gmap string DataFrame) unit :=
  items ← LocalCache.list_queries;
  removed ← clean_loop config items 0;
  when (0 <? removed)
    (emit (LogInfo ("Removed " +:+ pretty removed
                    +:+ " queries that exceeded max_hits"))).

Definition key_paths (env : Env) (api_key_dir : string) : list string :=
  ["scopus.yaml"; expanduser env api_key_dir +:+ "/scopus.yaml"].

(** The [try] block of [_load_api_key] for one existing path. *)
Definition load_api_key_body {S} (env : Env) (path : string)
    : M S (flow pyval) :=
  key_data ← lift (load_yaml env path);
  if truthy key_data then
    has_key ← lift (py_contains key_data "X-ELS-APIKey");
    if (has_key : bool) then
      api_key ← lift (py_item key_data "X-ELS-APIKey");
      if truthy api_key then
        emit (LogInfo ("Loaded Scopus API key from " +:+ path));;
        mret (Return api_key)
      else mret Next
    else mret Next
  else mret Next.

(** [for path in key_paths: ...] and the [raise] after the loop;
    [FileNotFoundError] is an [OSError]. *)
Fixpoint load_api_key_loop {S} (env : Env) (key_paths : list string)
    : M S pyval :=
  match key_paths with
  | [] => lift (Raise (OSError "Scopus API key not found"))
  | path :: rest =>
      if path_exists env path then
        r ← try_except (load_api_key_body env path) (λ _, true)
              (λ e, emit (LogWarning ("Error loading " +:+ path));; mret Next);
        match r with
        | Return api_key => mret api_key
        | Next => load_api_key_loop env rest
        end
      else load_api_key_loop env rest
  end.

Definition _load_api_key {S} (env : Env) (api_key_dir : string) : M S pyval :=
  load_api_key_loop env (key_paths env api_key_dir).

End ScopusSearchFetcher.

(** Modelled from the spec: the cache of [ScopusAbstractFetcher] is a
    [LocalCache] too, with [get(queryKey) -> rows or absent] and
    [store(queryKey, rows)], which replaces the entry.  Its frames have
    the two columns the fetcher writes, [ID] and [data]. *)
Record abstract_row : Type := mkAbstractRow {
  ar_ID : string;
  ar_data : pyval
}.

(** What a fetch works on: the cache, and the URLs asked of the network
    so far. *)
Record World : Type := mkWorld {
  cache_of : gmap string (list abstract_row);
  sent : list string
}.

Module ScopusAbstractFetcher.

Definition base_url : string := "https://api.elsevier.com/content/abstract/eid".

Definition key_paths (env : Env) : list string :=
  ["scopus.yaml";
   expanduser env "~/Documents/dh4pmp/api_keys" +:+ "/scopus.yaml"].

(** [_load_api_key]: no [try] here, and no test of the key. *)
Fixpoint load_api_key_loop (env : Env) (key_paths : list string)
    : result pyval :=
  match key_paths with
  | [] => Raise (OSError "Scopus API key file not found")
  | path :: rest =>
      if path_exists env path then
        key_data ← load_yaml env path;
        has_key ← (if truthy key_data
                   then py_contains key_data "X-ELS-APIKey"
                   else Ok false);
        if (has_key : bool) then py_item key_data "X-ELS-APIKey"
        else load_api_key_loop env rest
      else load_api_key_loop env rest
  end.

Definition _load_api_key (env : Env) : result pyval :=
  load_api_key_loop env (key_paths env).

Definition cache_get (eid : string) : M World (option (list abstract_row)) :=
  w ← read; mret (cache_of w !! eid).

Definition cache_store (eid : string) (df : list abstract_row) : M World unit :=
  modify (λ w, mkWorld (<[eid := df]> (cache_of w)) (sent w)).

(** [requests.get(url, headers=headers, timeout=30)]: the network
    answers [http url], and the URL is noted. *)
Definition requests_get (http : string → result Response) (url : string)
    : M World Response :=
  modify (λ w, mkWorld (cache_of w) (sent w ++ [url]));;
  lift (http url).

(** The [try] block of [fetch]. *)
Definition fetch_body (http : string → result Response) (eid url : string)
    : M World pyval :=
  r ← requests_get http url;
  if resp_ok r then
    data ← lift (resp_json r);
    cache_store eid [mkAbstractRow eid data];;
    mret data
  else
    emit (LogError ("Error fetching " +:+ eid));;
    mret PNone.

(** What [fetch] does after the look into the cache. *)
Definition fetch_from_api (http : string → result Response) (eid : string)
    : M World pyval :=
  let url := base_url +:+ "/" +:+ eid +:+ "?view=META_ABS" in
  try_except (fetch_body http eid url) (λ _, true)
    (λ e, emit (LogError ("Exception fetching " +:+ eid));; mret PNone).

Definition fetch (http : string → result Response) (eid : string)
    (force_refresh : bool) : M World pyval :=
  if negb force_refresh then
    cached ← cache_get eid;
    match cached with
    | Some (first :: _) => mret (ar_data first)
    | _ => fetch_from_api http eid
    end
  else fetch_from_api http eid.

(** [provide]: the frame of the rows it collected. *)
Fixpoint provide_loop (http : string → result Response) (eids : list string)
    (force_refresh : bool) (results : list abstract_row)
    : M World (list abstract_row) :=
  match eids with
  | [] => mret results
  | eid :: rest =>
      data ← fetch http eid force_refresh;
      provide_loop http rest force_refresh
        (if is_none data then results else results ++ [mkAbstractRow eid data])
  end.

Definition provide (http : string → result Response) (eids : list string)
    (force_refresh : bool) : M World (list abstract_row) :=
  provide_loop http eids force_refresh [].

End ScopusAbstractFetcher.

(** * Vocabulary of the specification *)

(** A page that reports an error: the given index, no hits, no records,
    and the tag. *)
Definition error_page (page : Z) (tag : pyval) (pg : dict pyval) : Prop :=
  dict_get "page" pg = Some (PInt page)
  ∧ dict_get "total_results" pg = Some (PInt 0)
  ∧ dict_get "results" pg = Some PNone
  ∧ dict_get "error" pg = Some tag.


(** [if given m then 10.0 else 1.0] *)
Definition default_rate_for (m : option string) : Q :=
  if CrossrefSearchFetcher.given m then 10 else 1.

(** How a filter value reads in Crossref's [filter=key:value,...]:
    booleans in lower case, everything else as [str] gives it. *)
Definition filter_text (value : pyval) : string :=
  match value with
  | PBool true => "true"
  | PBool false => "false"
  | v => py_str v
  end.

Definition filter_pair (kv : string * pyval) : string :=
  kv.1 +:+ ":" +:+ filter_text kv.2.

(** A link entry of a Scopus body, and one that points to the next
    page. *)
Definition is_mapping (v : pyval) : Prop := ∃ d, v = PDict d.


(** An entry records a capped run: one of its rows has no payload and a
    declared total above the cap. *)
Definition capped (max_results_per_query : Z) (data : DataFrame) : Prop :=
  ∃ r, r ∈ data ∧ row_data r = None ∧ max_results_per_query < row_num_hits r.

(** The cache holds a capped entry under [query]. *)
Definition doomed (max_results_per_query : Z) (cache : gmap string DataFrame)
    (query : string) : Prop :=
  ∃ data, cache !! query = Some data ∧ capped max_results_per_query data.

(** What [urlencode] makes of one item, and what it decodes to. *)
Definition encode_item (kv : string * pyval) : string :=
  Url.quote_plus kv.1 +:+ "=" +:+ Url.quote_plus (py_str kv.2).

Definition decoded_item (kv : string * pyval) : string * string :=
  (kv.1, py_str kv.2).

(** A token that URL-encoding leaves as it is. *)
Definition url_safe (token : string) : Prop := Url.quote_plus token = token.

(** An item whose key and value URL-encoding leaves as they are. *)
Definition plain_item (kv : string * pyval) : Prop :=
  url_safe kv.1 ∧ url_safe (py_str kv.2).

(** A dictionary without its [cursor], and the same with a new one at
    the end. *)
Definition without_cursor (d : dict pyval) : dict pyval :=
  filter (λ kv, kv.1 ≠ "cursor") d.

Definition with_cursor (token : string) (d : dict pyval) : dict pyval :=
  without_cursor d ++ [("cursor", PStr token)].

(** A Crossref body whose message has records and the continuation token
    [token]. *)
Definition has_next_cursor (response_data : dict pyval) (token : string) : Prop :=
  ∃ message item items,
    dict_get "message" response_data = Some (PDict message)
    ∧ dict_get "items" message = Some (PList (item :: items))
    ∧ dict_get "next-cursor" message = Some (PStr token).


(** The URL [ScopusAbstractFetcher.fetch] asks for. *)
Definition abstract_url (eid : string) : string :=
  ScopusAbstractFetcher.base_url +:+ "/" +:+ eid +:+ "?view=META_ABS".

(** The cache has nothing to serve for [eid]: no entry, or an empty
    one. *)
Definition cache_miss (w : World) (eid : string) : Prop :=
  cache_of w !! eid = None ∨ cache_of w !! eid = Some [].

(** * Inputs for the examples *)

(** Two environments to run the loaders in: one without any file, one
    with a [crossref.yaml] in the working directory. *)
Definition env_no_files : Env := mkEnv "/home/user" (λ _, Absent).
Definition env_with_mailto : Env :=
  mkEnv "/home/user"
    (λ path, if decide (path = "crossref.yaml")
             then Yaml (PDict [("mailto", PStr "librarian@example.org")])
             else Absent).

Definition no_kwargs : CrossrefSearchFetcher.kwargs :=
  CrossrefSearchFetcher.mkKwargs None None None None None.

(** A Scopus configuration as [ScopusSearchFetcher] builds it, and a
    cache with a capped and a complete entry. *)
Definition scopus_config : ScopusConfig :=
  ScopusConfig.__post_init__
    (mkScopusConfig "k3y" "https://api.elsevier.com/content/search/scopus"
       "COMPLETE" 2 5 5000 3 []).

Definition capped_run : DataFrame :=
  [mkRow "TITLE(network)" 0 120000 None None].
Definition complete_run : DataFrame :=
  [mkRow "TITLE(zymurgy)" 0 2 (Some (PList [PDict []; PDict []])) None].
Definition cache_example : gmap string DataFrame :=
  {[ "TITLE(network)" := capped_run; "TITLE(zymurgy)" := complete_run ]}.

(** A limiter that has not seen any header yet. *)
Definition fresh_limiter : RateLimiter := mkRateLimiter None None None.

(** [n] zeros *)
Fixpoint zeros (n : nat) : string :=
  match n with
  | O => ""
  | S n => String "0" (zeros n)
  end.

(** A Crossref body with one record and the continuation token
    [token]. *)
Definition crossref_page (token : string) : dict pyval :=
  [("status", PStr "ok");
   ("message-type", PStr "work-list");
   ("message", PDict [("total-results", PInt 150);
                      ("items", PList [PDict [("DOI", PStr "10.1000/182")]]);
                      ("next-cursor", PStr token)])].

(** The first URL of a run, as [_build_search_url] makes it. *)
Definition first_url : string :=
  "https://api.crossref.org/works?rows=100&query=machine+learning&cursor=%2A".

(** A Crossref configuration as [CrossrefSearchFetcher] builds it for the
    public pool, and one whose default parameters name a cursor. *)
Definition crossref_config : CrossrefConfig :=
  CrossrefConfig.__post_init__
    (mkCrossrefConfig "" "https://api.crossref.org/works" 1 20 10000 3 100 []).


(** * Properties *)

Lemma filter_none {A} (P : A → Prop) `{!∀ x, Decision (P x)} (l : list A) :
  (∀ x, x ∈ l → ¬ P x) → filter P l = [].
Proof.
  induction l as [|x l IH]; intros Hl; [done|].
  rewrite filter_cons_False by (apply Hl; left).
  apply IH. intros y Hy. apply Hl. by right.
Qed.

(** ** Dictionaries *)

Section dict_facts.
Context {V : Type}.
Implicit Types (d a b : dict V) (k : string) (v : V).

Lemma dict_in_get k d : dict_in k d = true ↔ is_Some (dict_get k d).
Proof.
  unfold dict_in.
  destruct (dict_get k d); split; [eauto | done | done | by intros [? ?]].
Qed.

Lemma dict_in_false k d : dict_in k d = false ↔ dict_get k d = None.
Proof. unfold dict_in. by destruct (dict_get k d). Qed.

Lemma dict_get_set_eq k v d : dict_get k (dict_set k v d) = Some v.
Proof.
  induction d as [|[k' v'] d IH]; simpl.
  - by rewrite decide_True.
  - destruct (decide (k' = k)) as [->|Hne]; simpl.
    + by rewrite decide_True.
    + by rewrite decide_False.
Qed.

Lemma dict_get_set_ne k k' v d :
  k ≠ k' → dict_get k' (dict_set k v d) = dict_get k' d.
Proof.
  intros Hne. induction d as [|[k0 v0] d IH]; simpl.
  - by rewrite decide_False.
  - destruct (decide (k0 = k)) as [->|Hne0]; simpl.
    + by rewrite !decide_False.
    + by rewrite IH.
Qed.

Lemma dict_get_set k k' v d :
  dict_get k' (dict_set k v d) = if decide (k = k') then Some v else dict_get k' d.
Proof.
  destruct (decide (k = k')) as [->|Hne];
    [apply dict_get_set_eq | by apply dict_get_set_ne].
Qed.

Lemma dict_get_None_keys k d : dict_get k d = None ↔ k ∉ d.*1.
Proof.
  induction d as [|[k' v'] d IH]; simpl.
  - split; [intros _; apply not_elem_of_nil | done].
  - rewrite not_elem_of_cons. destruct (decide (k' = k)) as [->|Hne].
    + split; [done | by intros [? _]].
    + rewrite IH. split; [by intros ?; split | by intros [_ ?]].
Qed.

Lemma dict_set_keys_absent k v d :
  dict_get k d = None → dict_set k v d = d ++ [(k, v)].
Proof.
  induction d as [|[k' v'] d IH]; simpl; [done|].
  destruct (decide (k' = k)); [done|]. intros H. by rewrite IH.
Qed.

Lemma dict_set_keys_present k v d :
  is_Some (dict_get k d) → (dict_set k v d).*1 = d.*1.
Proof.
  induction d as [|[k' v'] d IH]; simpl; [by intros [? ?]|].
  destruct (decide (k' = k)) as [->|]; [done|].
  intros H. rewrite !fmap_cons. f_equal. by apply IH.
Qed.

Lemma dict_set_wf k v d : dict_wf d → dict_wf (dict_set k v d).
Proof.
  unfold dict_wf. intros Hd.
  destruct (dict_get k d) as [v0|] eqn:Hk.
  - by rewrite dict_set_keys_present.
  - rewrite dict_set_keys_absent, fmap_app by done. simpl.
    apply NoDup_app. split_and!; [done| |apply NoDup_singleton].
    intros x Hx ->%list_elem_of_singleton. by apply dict_get_None_keys in Hk.
Qed.

Lemma dict_merge_wf a b : dict_wf a → dict_wf (dict_merge a b).
Proof.
  unfold dict_merge. revert a.
  induction b as [|[k v] b IH]; intros a Ha; simpl; [done|].
  by apply IH, dict_set_wf.
Qed.

Lemma dict_get_merge k a b :
  dict_get k (dict_merge a b) =
    match dict_get k (reverse b) with
    | Some v => Some v
    | None => dict_get k a
    end.
Proof.
  unfold dict_merge. revert a.
  induction b as [|[k' v'] b IH]; intros a; simpl; [done|].
  rewrite IH, reverse_cons. clear IH.
  assert (Hsnoc : ∀ d : dict V, dict_get k (d ++ [(k', v')]) =
            match dict_get k d with
            | Some v => Some v
            | None => if decide (k' = k) then Some v' else None
            end).
  { induction d as [|[k0 v0] d IH]; simpl; [done|].
    by destruct (decide (k0 = k)). }
  rewrite Hsnoc, dict_get_set.
  by destruct (dict_get k (reverse b)), (decide (k' = k)).
Qed.

(** In a well-formed dictionary a key occurs once. *)
Lemma dict_wf_filter_key k v d :
  dict_wf d → dict_get k d = Some v →
  filter (λ kv, kv.1 = k) d = [(k, v)].
Proof.
  unfold dict_wf. induction d as [|[k' v'] d IH]; simpl; [done|].
  intros [Hk' Hd]%NoDup_cons. destruct (decide (k' = k)) as [->|Hne].
  - intros [= ->]. rewrite filter_cons_True by done. f_equal.
    apply filter_none.
    intros [k0 v0] Hin ?; simplify_eq/=. apply Hk'.
    apply list_elem_of_fmap. by exists (k, v0).
  - intros Hget. rewrite filter_cons_False by done. by apply IH.
Qed.

Lemma dict_filter_key_None k d :
  dict_get k d = None → filter (λ kv, kv.1 = k) d = [].
Proof.
  intros Hk%dict_get_None_keys.
  apply filter_none.
  intros [k0 v0] Hin ?; simplify_eq/=. apply Hk.
  apply list_elem_of_fmap. by exists (k, v0).
Qed.
End dict_facts.

(** ** Strings and the query-string codec *)

Lemma append_nil (b : string) : "" +:+ b = b.
Proof. reflexivity. Qed.

Lemma append_cons x (a b : string) : String x a +:+ b = String x (a +:+ b).
Proof. reflexivity. Qed.

Ltac string_step := rewrite ?append_nil, ?append_cons; simpl.

Lemma append_assoc (a b c : string) : (a +:+ b) +:+ c = a +:+ b +:+ c.
Proof. induction a as [|x a IH]; string_step; [done|]. by rewrite IH. Qed.

Lemma mem_app c (a b : string) :
  Str.mem c (a +:+ b) = Str.mem c a || Str.mem c b.
Proof.
  induction a as [|x a IH]; string_step; [done|].
  by destruct (decide (x = c)).
Qed.

Lemma replace_app x y (a b : string) :
  Str.replace x y (a +:+ b) = Str.replace x y a +:+ Str.replace x y b.
Proof. induction a as [|c a IH]; string_step; [done|]. by rewrite IH. Qed.

Lemma split_no_sep c (a : string) : Str.mem c a = false → Str.split c a = [a].
Proof.
  induction a as [|x a IH]; simpl; [done|].
  destruct (decide (x = c)); [done|]. intros H. by rewrite IH.
Qed.

Lemma split_app c (a b : string) :
  Str.mem c a = false → Str.split c (a +:+ String c b) = a :: Str.split c b.
Proof.
  induction a as [|x a IH]; string_step.
  - by rewrite decide_True.
  - destruct (decide (x = c)); [done|]. intros H. by rewrite IH.
Qed.

Lemma split1_no_sep c (a : string) :
  Str.mem c a = false → Str.split1 c a = (a, None).
Proof.
  induction a as [|x a IH]; simpl; [done|].
  destruct (decide (x = c)); [done|]. intros H. by rewrite IH.
Qed.

Lemma split1_app c (a b : string) :
  Str.mem c a = false → Str.split1 c (a +:+ String c b) = (a, Some b).
Proof.
  induction a as [|x a IH]; string_step.
  - by rewrite decide_True.
  - destruct (decide (x = c)); [done|]. intros H. by rewrite IH.
Qed.

(** One escaped byte decodes to the byte. *)
Lemma unquote_quote_char c (rest : string) :
  Url.unquote (Str.replace "+" " " (Url.quote_char c) +:+ rest)
  = String c (Url.unquote rest).
Proof. destruct c as [[] [] [] [] [] [] [] []]; reflexivity. Qed.

Lemma unquote_plus_quote_plus (s : string) :
  Url.unquote_plus (Url.quote_plus s) = s.
Proof.
  unfold Url.unquote_plus. induction s as [|c s IH]; simpl; [done|].
  by rewrite replace_app, unquote_quote_char, IH.
Qed.

Lemma mem_cons c x (s : string) :
  Str.mem c (String x s) = if decide (x = c) then true else Str.mem c s.
Proof. reflexivity. Qed.

(** Case analysis on a character known to be one of a few. *)
Ltac each_sep H :=
  repeat (apply elem_of_cons in H as [H|H]; [try subst; try discriminate|]);
  try (by apply not_elem_of_nil in H).

Ltac sep_mem :=
  repeat first [apply list_elem_of_here | apply list_elem_of_further].

(** An escaped byte is none of the characters that structure a URL. *)
Lemma quote_char_plain c sep :
  sep ∈ ["&"; "="; "#"; "?"]%char → Str.mem sep (Url.quote_char c) = false.
Proof.
  intros Hsep. each_sep Hsep;
    destruct c as [[] [] [] [] [] [] [] []]; reflexivity.
Qed.

Lemma quote_plus_plain s sep :
  sep ∈ ["&"; "="; "#"; "?"]%char → Str.mem sep (Url.quote_plus s) = false.
Proof.
  intros Hsep. induction s as [|c s IH]; simpl; [done|].
  by rewrite mem_app, quote_char_plain, IH.
Qed.

Lemma encode_item_plain kv sep :
  sep ∈ ["&"; "#"; "?"]%char → Str.mem sep (encode_item kv) = false.
Proof.
  intros Hsep. unfold encode_item.
  rewrite mem_app, append_cons, append_nil, mem_cons.
  each_sep Hsep; rewrite !quote_plus_plain by sep_mem; reflexivity.
Qed.

Lemma parse_pair_encode_item kv :
  Url.parse_pair (encode_item kv) = decoded_item kv.
Proof.
  unfold Url.parse_pair, encode_item, decoded_item. simpl.
  rewrite append_cons, append_nil.
  rewrite split1_app by (apply quote_plus_plain; sep_mem). simpl.
  by rewrite !unquote_plus_quote_plus.
Qed.

Lemma encode_item_nonempty kv : encode_item kv ≠ "".
Proof.
  unfold encode_item. destruct (Url.quote_plus kv.1); discriminate.
Qed.

Lemma join_cons2 sep (x y : string) l :
  Str.join sep (x :: y :: l) = x +:+ sep +:+ Str.join sep (y :: l).
Proof. reflexivity. Qed.

Lemma urlencode_eq (d : dict pyval) :
  Url.urlencode d = Str.join "&" (map encode_item d).
Proof. reflexivity. Qed.

(** [parse_qsl] inverts [urlencode]. *)
Lemma parse_qsl_urlencode (d : dict pyval) :
  Url.parse_qsl (Url.urlencode d) = decoded_item <$> d.
Proof.
  unfold Url.parse_qsl, Url.urlencode.
  change (λ kv : string * pyval, _) with encode_item.
  induction d as [|kv d IH]; [done|].
  destruct d as [|kv' d].
  - simpl. rewrite split_no_sep by (apply encode_item_plain; sep_mem).
    rewrite filter_cons_True by apply encode_item_nonempty.
    simpl. by rewrite parse_pair_encode_item.
  - rewrite !map_cons, join_cons2, append_cons, append_nil, <-!map_cons.
    rewrite split_app by (apply encode_item_plain; sep_mem).
    rewrite filter_cons_True by apply encode_item_nonempty.
    rewrite (map_cons Url.parse_pair), IH. by rewrite parse_pair_encode_item.
Qed.

Lemma urlencode_plain d sep :
  sep ∈ ["#"; "?"]%char → Str.mem sep (Url.urlencode d) = false.
Proof.
  intros Hsep. unfold Url.urlencode.
  change (λ kv : string * pyval, _) with encode_item.
  induction d as [|kv d IH]; [done|].
  destruct d as [|kv' d].
  - simpl. apply encode_item_plain. by right.
  - rewrite !map_cons, join_cons2, append_cons, append_nil, <-!map_cons.
    rewrite mem_app, encode_item_plain by (by right).
    rewrite mem_cons, decide_False; [exact IH|].
    intros <-. each_sep Hsep.
Qed.

(** The parameters called [name] in an encoded dictionary. *)
Lemma values_of_urlencode name (d : dict pyval) :
  dict_wf d →
  Url.values_of name (Url.urlencode d)
  = match dict_get name d with
    | Some v => [py_str v]
    | None => []
    end.
Proof.
  intros Hwf. unfold Url.values_of. rewrite parse_qsl_urlencode.
  assert (filter (λ kv : string * string, kv.1 = name) (decoded_item <$> d)
          = decoded_item <$> filter (λ kv : string * pyval, kv.1 = name) d) as ->.
  { clear Hwf. induction d as [|[k v] d IH]; [done|]. rewrite fmap_cons.
    destruct (decide (k = name)) as [->|Hne].
    - rewrite !filter_cons_True by done. by rewrite fmap_cons, IH.
    - by rewrite !filter_cons_False by done. }
  destruct (dict_get name d) as [v|] eqn:Hget.
  - by rewrite (dict_wf_filter_key _ _ _ Hwf Hget).
  - by rewrite dict_filter_key_None.
Qed.

(** The query of a URL put together from a plain base and an encoded
    dictionary is that encoding. *)
Lemma query_of_built_url (base : string) d :
  Str.mem "#" base = false → Str.mem "?" base = false →
  Url.query (base +:+ "?" +:+ Url.urlencode d) = Url.urlencode d.
Proof.
  intros Hhash Hq. unfold Url.query.
  rewrite (split1_no_sep "#").
  - simpl. rewrite ?append_cons, ?append_nil. by rewrite split1_app.
  - rewrite mem_app, Hhash, ?append_cons, ?append_nil, mem_cons. simpl.
    apply urlencode_plain. sep_mem.
Qed.

(** ** Rate-limit headers *)

(** X9: without a reset header the Scopus limiter returns normally: a
    value that does not parse is caught and logged. *)
Lemma scopus_update_without_reset headers self log :
  dict_get "X-RateLimit-Reset" headers = None →
  ∃ self' log',
    ScopusRateLimiter.update_from_headers headers self log = (Ok (), self', log').
Proof.
  intros Hreset.
  unfold ScopusRateLimiter.update_from_headers, try_except,
    ScopusRateLimiter.update_body, when, dict_in, dict_item.
  unfold mbind, M_bind, lift, modify, emit, mret, M_ret. rewrite Hreset.
  destruct (dict_get "X-RateLimit-Limit" headers) as [v1|];
    destruct (dict_get "X-RateLimit-Remaining" headers) as [v2|];
    try destruct (int_of_str v1) as [n1|[]] eqn:H1;
    try destruct (int_of_str v2) as [n2|[]] eqn:H2;
    try (unfold int_of_str in *; by repeat case_match);
    simpl; try destruct (_ =? 0); by eexists _, _.
Qed.

(** C6 (fails): a reset header beyond the range of [time_t] makes the
    Scopus limiter raise [OverflowError], and a limit too large for a
    float makes the Crossref limiter raise [OverflowError]; neither is
    among the exceptions the [try] blocks catch. *)
Theorem C6_update_from_headers_raises :
  (∃ msg,
     ScopusRateLimiter.update_from_headers
       [("X-RateLimit-Limit", "20000"); ("X-RateLimit-Remaining", "19999");
        ("X-RateLimit-Reset", "9223372036854775808")] fresh_limiter []
     = (Raise (OverflowError msg),
        mkRateLimiter (Some 20000) (Some 19999) None, []))
  ∧ (∃ msg,
       CrossrefRateLimiter.update_from_headers
         [("X-Rate-Limit-Limit", "1" +:+ zeros 400);
          ("X-Rate-Limit-Interval", "1s")] fresh_limiter []
       = (Raise (OverflowError msg),
          mkRateLimiter (Some (10 ^ 400)) None None, [])).
Proof. split; eexists; vm_compute; reflexivity. Qed.

(** The same happens to a Crossref limiter that has no limit yet and
    sees an interval alone: [None / interval_seconds] is a
    [TypeError]. *)
Lemma crossref_update_interval_alone :
  ∃ msg,
    CrossrefRateLimiter.update_from_headers
      [("X-Rate-Limit-Interval", "1s")] fresh_limiter []
    = (Raise (TypeError msg), fresh_limiter, []).
Proof. eexists. reflexivity. Qed.

(** X10: without an interval header the Crossref limiter returns
    normally. *)
Lemma crossref_update_without_interval headers self log :
  dict_get "X-Rate-Limit-Interval" headers = None →
  ∃ self' log',
    CrossrefRateLimiter.update_from_headers headers self log
    = (Ok (), self', log').
Proof.
  intros Hinterval.
  unfold CrossrefRateLimiter.update_from_headers, try_except,
    CrossrefRateLimiter.update_body, when, dict_in, dict_item.
  unfold mbind, M_bind, lift, modify, emit, mret, M_ret. rewrite Hinterval.
  destruct (dict_get "X-Rate-Limit-Limit" headers) as [v|]; [|by eexists _, _].
  unfold int_of_str. destruct (int_literal v); by eexists _, _.
Qed.

(** ** Loading the contact address *)

Section load_email.
Context {S : Type} (env : Env).

Let handler (path : string) (e : exn) : M S (flow (option string)) :=
  emit (LogWarning ("Error loading " +:+ path));; mret Next.

(** One pass of the loop never raises, leaves the object alone, and
    returns an address only if the file at [path] offers it. *)
Lemma load_email_body_total path (s : S) l :
  ∃ out l',
    try_except (CrossrefSearchFetcher.load_email_body env path) (λ _, true)
      (handler path) s l = (Ok out, s, l')
    ∧ ∀ e, out = Return (Some e) →
        ∃ d, file env path = Yaml (PDict d)
             ∧ (dict_get "mailto" d = Some (PStr e)
                ∨ dict_get "email" d = Some (PStr e))
             ∧ Str.mem "@" e = true.
Proof.
  unfold try_except, CrossrefSearchFetcher.load_email_body, load_yaml, handler.
  unfold mbind, M_bind, lift, emit, mret, M_ret.
  destruct (file env path) as [|err|doc] eqn:Hf; simpl;
    [by eexists _, _ | by eexists _, _ |].
  destruct doc as [| | | | |d]; simpl; try by eexists _, _.
  destruct (dict_get "mailto" d) as [mailto|] eqn:Hm; simpl.
  - destruct (truthy mailto) eqn:Ht; simpl.
    + destruct mailto as [| | |e| |]; simpl in *;
        try discriminate; try by eexists _, _.
      rewrite Ht. simpl.
      destruct (Str.mem "@" e) eqn:Hat; simpl.
      * eexists _, _. split; [done|]. intros ? [= <-]. eauto.
      * case_bool_decide; [by subst|by eexists _, _].
    + destruct (dict_get "email" d) as [email|] eqn:He; simpl;
        [|by eexists _, _].
      destruct email as [| | |e| |]; simpl; try by eexists _, _.
      destruct (negb (bool_decide (e = "")) && Str.mem "@" e) eqn:Hat; simpl.
      * apply andb_true_iff in Hat as [_ Hat].
        eexists _, _. split; [done|]. intros ? [= <-]. eauto.
      * case_bool_decide; by eexists _, _.
  - destruct (dict_get "email" d) as [email|] eqn:He; simpl;
      [|by eexists _, _].
    destruct email as [| | |e| |]; simpl; try by eexists _, _.
    destruct (negb (bool_decide (e = "")) && Str.mem "@" e) eqn:Hat; simpl.
    + apply andb_true_iff in Hat as [_ Hat].
      eexists _, _. split; [done|]. intros ? [= <-]. eauto.
    + case_bool_decide; by eexists _, _.
Qed.

Lemma load_email_loop_total key_paths (s : S) l :
  ∃ r l',
    CrossrefSearchFetcher.load_email_loop env key_paths s l = (Ok r, s, l')
    ∧ ∀ e, r = Some e →
        ∃ path d, path ∈ key_paths
             ∧ file env path = Yaml (PDict d)
             ∧ (dict_get "mailto" d = Some (PStr e)
                ∨ dict_get "email" d = Some (PStr e))
             ∧ Str.mem "@" e = true.
Proof.
  revert l. induction key_paths as [|path rest IH]; intros l; simpl.
  - by eexists _, _.
  - destruct (path_exists env path).
    + destruct (load_email_body_total path s l) as (out & l1 & Hbody & Hout).
      unfold mbind at 1. unfold M_bind at 1. fold (handler path).
      rewrite Hbody. destruct out as [v|].
      * eexists _, _. split; [done|]. intros e ->.
        destruct (Hout e eq_refl) as (d & ? & ? & ?).
        exists path, d. split_and!; [left|..]; done.
      * destruct (IH l1) as (r & l' & -> & Hr).
        eexists _, _. split; [done|]. intros e He.
        destruct (Hr e He) as (p & d & ? & ?). exists p, d. split; [by right|done].
    + destruct (IH l) as (r & l' & -> & Hr).
      eexists _, _. split; [done|]. intros e He.
      destruct (Hr e He) as (p & d & ? & ?). exists p, d. split; [by right|done].
Qed.

End load_email.

(** ** Building the Crossref configuration *)

(** [__init__] never raises: it resolves the address (the one passed, or
    the one [_load_email] finds) and builds the configuration from it. *)
Lemma crossref_init_total {S} env mailto api_key_dir kw (s : S) l :
  ∃ m config l',
    CrossrefSearchFetcher.__init__ env mailto api_key_dir kw s l
    = (Ok config, s, l')
    ∧ match mailto with
      | Some x => m = Some x
      | None => (CrossrefSearchFetcher._load_email env api_key_dir s l).1.1 = Ok m
      end
    ∧ cr_mailto config = (if CrossrefSearchFetcher.given m then default "" m else "")
    ∧ cr_requests_per_second config
      = default (default_rate_for m) (CrossrefSearchFetcher.kw_requests_per_second kw)
    ∧ cr_default_params config
      = [("rows", PInt (default 100 (CrossrefSearchFetcher.kw_rows_per_page kw)))].
Proof.
  unfold CrossrefSearchFetcher.__init__, default_rate_for.
  unfold mbind at 1. unfold M_bind at 1.
  destruct mailto as [x|].
  - exists (Some x). unfold mret at 1, M_ret at 1.
    unfold mbind, M_bind, emit, mret, M_ret.
    destruct (CrossrefSearchFetcher.given (Some x)); by eexists _, _.
  - unfold CrossrefSearchFetcher._load_email.
    destruct (load_email_loop_total (S:=S) env
                (CrossrefSearchFetcher.key_paths env api_key_dir) s l)
      as (r & l1 & -> & _).
    exists r. unfold mbind, M_bind, emit, mret, M_ret.
    destruct (CrossrefSearchFetcher.given r); by eexists _, _.
Qed.



(** ** Authentication setup *)

(** C4: the Scopus session setup raises a [ValueError] exactly when the
    API key is empty, and then leaves the session untouched; the Crossref
    session setup succeeds without a [mailto], logging a warning; and the
    Crossref fetcher built without an address (none passed and none
    found, or an empty one passed) gets the public-pool default rate 1.0
    unless the caller passes a rate. *)
Theorem C4_authentication_setup :
  (∀ config headers log,
     sc_api_key config = "" →
     ∃ msg, ScopusSearchClient._setup_session config headers log
            = (Raise (ValueError msg), headers, log))
  ∧ (∀ config headers log,
       sc_api_key config ≠ "" →
       ∃ headers' log',
         ScopusSearchClient._setup_session config headers log
         = (Ok (), headers', log')
         ∧ dict_get "X-ELS-APIKey" headers' = Some (sc_api_key config))
  ∧ (∀ config headers log,
       cr_mailto config = "" →
       ∃ headers',
         CrossrefSearchClient._setup_session config headers log
         = (Ok (), headers',
            log ++ [LogWarning "No mailto provided - using public pool (slower rate limits)"])
         ∧ dict_get "User-Agent" headers' = Some "api_clients/1.0")
  ∧ (∀ (S : Type) env mailto api_key_dir kw (s : S) log,
       (mailto = Some ""
        ∨ mailto = None
          ∧ (CrossrefSearchFetcher._load_email env api_key_dir s log).1.1 = Ok None) →
       ∃ config log',
         CrossrefSearchFetcher.__init__ env mailto api_key_dir kw s log
         = (Ok config, s, log')
         ∧ cr_mailto config = ""
         ∧ cr_requests_per_second config
           = default (1 : Q) (CrossrefSearchFetcher.kw_requests_per_second kw)).
Proof.
  split_and!.
  - intros config headers log Hkey.
    unfold ScopusSearchClient._setup_session. rewrite Hkey. by eexists.
  - intros config headers log Hkey.
    unfold ScopusSearchClient._setup_session.
    destruct (sc_api_key config) as [|c key] eqn:Hk; [done|]. simpl.
    eexists _, _. split; [done|]. unfold dict_merge. simpl.
    apply dict_get_set_eq.
  - intros config headers log Hmail.
    unfold CrossrefSearchClient._setup_session. rewrite Hmail. simpl.
    eexists. split; [done|]. unfold dict_merge. simpl.
    rewrite dict_get_set_ne by done. apply dict_get_set_eq.
  - intros S env mailto api_key_dir kw s log Hm.
    destruct (crossref_init_total env mailto api_key_dir kw s log)
      as (m & config & l' & Hinit & Hres & Hmail & Hrate & _).
    exists config, l'. split; [done|].
    assert (CrossrefSearchFetcher.given m = false) as Hgiven.
    { destruct Hm as [->|[-> Hload]]; [by subst|].
      rewrite Hload in Hres. by injection Hres as <-. }
    rewrite Hmail, Hrate. unfold default_rate_for. by rewrite Hgiven.
Qed.

Lemma C4_authentication_setup_witness :
  (∃ msg, ScopusSearchClient._setup_session
            (mkScopusConfig "" "https://api.elsevier.com/content/search/scopus"
               "COMPLETE" 2 5 5000 3 [("count", PInt 25)]) [] []
          = (Raise (ValueError msg), [], []))
  ∧ (∃ headers' log',
       ScopusSearchClient._setup_session
         (mkScopusConfig "k3y" "https://api.elsevier.com/content/search/scopus"
            "COMPLETE" 2 5 5000 3 [("count", PInt 25)]) [] []
       = (Ok (), headers', log')
       ∧ dict_get "X-ELS-APIKey" headers' = Some "k3y")
  ∧ (∃ headers',
       CrossrefSearchClient._setup_session
         (mkCrossrefConfig "" "https://api.crossref.org/works" 1 20 10000 3 100
            [("rows", PInt 100)]) [] []
       = (Ok (), headers',
          [LogWarning "No mailto provided - using public pool (slower rate limits)"])
       ∧ dict_get "User-Agent" headers' = Some "api_clients/1.0")
  ∧ (∃ config log',
       CrossrefSearchFetcher.__init__ env_no_files None "~/keys" no_kwargs () []
       = (Ok config, (), log')
       ∧ cr_mailto config = ""
       ∧ cr_requests_per_second config = (1 : Q)).
Proof.
  destruct C4_authentication_setup as (Hscopus_fail & Hscopus_ok & Hcrossref & Hrate).
  split_and!.
  - by apply Hscopus_fail.
  - by apply (Hscopus_ok (mkScopusConfig "k3y" _ _ _ _ _ _ _)).
  - by apply (Hcrossref (mkCrossrefConfig "" _ _ _ _ _ _ _) [] []).
  - apply (Hrate unit env_no_files None "~/keys" no_kwargs () []).
    right. split; reflexivity.
Defined.

(** ** The first request *)

Lemma dict_get_elem_of {V} k (v : V) (d : dict V) :
  dict_wf d → dict_get k d = Some v ↔ (k, v) ∈ d.
Proof.
  unfold dict_wf. induction d as [|[k' v'] d IH]; simpl.
  - intros _. split; [done|by intros ?%not_elem_of_nil].
  - intros [Hk' Hd]%NoDup_cons. rewrite elem_of_cons.
    destruct (decide (k' = k)) as [->|Hne].
    + split; [by intros [= ->]; left|].
      intros [[= ->]|Hin]; [done|]. destruct Hk'.
      apply list_elem_of_fmap. by exists (k, v).
    + rewrite IH by done. split; [by right|]. by intros [[= ? ?]|?].
Qed.

Lemma dict_get_reverse {V} k (d : dict V) :
  dict_wf d → dict_get k (reverse d) = dict_get k d.
Proof.
  intros Hwf.
  assert (dict_wf (reverse d)) as Hwf'.
  { unfold dict_wf in *. by rewrite fmap_reverse, reverse_Permutation. }
  destruct (dict_get k d) as [v|] eqn:Hget.
  - apply (dict_get_elem_of _ _ _ Hwf'), elem_of_reverse.
    by apply (dict_get_elem_of _ _ _ Hwf).
  - destruct (dict_get k (reverse d)) as [v|] eqn:Hrev; [|done].
    apply (proj1 (dict_get_elem_of _ _ _ Hwf')) in Hrev.
    apply (proj1 (elem_of_reverse _ _)) in Hrev.
    apply (proj2 (dict_get_elem_of _ _ _ Hwf)) in Hrev. congruence.
Qed.

(** [{**a, **b}[k]]: the value in [b], else the value in [a]. *)
Lemma dict_get_merge_wf {V} k (a b : dict V) :
  dict_wf b →
  dict_get k (dict_merge a b)
  = match dict_get k b with Some v => Some v | None => dict_get k a end.
Proof. intros Hb. by rewrite dict_get_merge, dict_get_reverse. Qed.

Section build_search_url.
Context (config : CrossrefConfig) (query : string) (params : option (dict pyval)).
Hypothesis default_params_wf : dict_wf (cr_default_params config).
Hypothesis params_wf : dict_wf (default [] params).

Let merged := dict_merge (cr_default_params config) (default [] params).

Lemma url_params_wf :
  dict_wf (CrossrefSearchClient.url_params config query params).
Proof.
  unfold CrossrefSearchClient.url_params.
  repeat case_match; repeat apply dict_set_wf; by apply dict_merge_wf.
Qed.

(** The cursor of the request: the one of the merged parameters, else
    the sentinel. *)
Lemma url_params_cursor :
  dict_get "cursor" (CrossrefSearchClient.url_params config query params)
  = Some (default (PStr "*") (dict_get "cursor" merged)).
Proof.
  unfold CrossrefSearchClient.url_params. fold merged.
  set (with_query := dict_set "query" (PStr query) merged).
  set (with_mailto := if _ && _ then _ else with_query).
  assert (dict_get "cursor" with_mailto = dict_get "cursor" merged) as Hsame.
  { unfold with_mailto, with_query.
    destruct (_ && _); by rewrite !dict_get_set_ne. }
  unfold dict_in. destruct (dict_get "cursor" with_mailto) as [v|] eqn:Hc; simpl.
  - by rewrite Hc, <-Hsame.
  - by rewrite dict_get_set_eq, <-Hsame.
Qed.

End build_search_url.




(** ** Provider-level error envelopes *)

(** C3 as stated fails: a Scopus body with an [error] key whose value is
    null, and a Crossref body with a failing [status] and a null
    [message-type], both parse to a page whose error tag is null. *)
Lemma C3_null_tag_counterexample :
  (dict_in "error" [("error", PNone)] = true
   ∧ ∃ pg, ScopusSearchClient._parse_page_response [("error", PNone)] 0 = Ok pg
           ∧ dict_get "error" pg = Some PNone)
  ∧ (∃ pg, CrossrefSearchClient._parse_page_response
             [("status", PStr "failed"); ("message-type", PNone)] 0 = Ok pg
           ∧ dict_get "error" pg = Some PNone).
Proof. split; [split; [done|]|]; eexists; split; reflexivity. Qed.

(** C3 (amended): a body with an error envelope parses to an error page
    with the given index, total 0 and a null record list, whose tag is
    the envelope's own: for Crossref the value of [message-type], or
    ['unknown_error'] when the body has no such field; for Scopus the
    value of [error].  The tag is therefore non-null whenever that value
    is. *)
Theorem C3_error_envelope response_data page :
  (∀ status, dict_get "status" response_data = Some status →
     eq_str status "ok" = false →
     ∃ pg tag,
       CrossrefSearchClient._parse_page_response response_data page = Ok pg
       ∧ error_page page tag pg
       ∧ tag = default (PStr "unknown_error")
                 (dict_get "message-type" response_data)
       ∧ (dict_get "message-type" response_data ≠ Some PNone → tag ≠ PNone))
  ∧ (∀ err, dict_get "error" response_data = Some err →
     ∃ pg, ScopusSearchClient._parse_page_response response_data page = Ok pg
           ∧ error_page page err pg).
Proof.
  split.
  - intros status Hs Hok.
    unfold CrossrefSearchClient._parse_page_response, dict_in.
    rewrite Hs. simpl. rewrite Hok. simpl.
    eexists _, _. split_and!; try done.
    by destruct (dict_get "message-type" response_data) as [[]|].
  - intros err He.
    unfold ScopusSearchClient._parse_page_response, dict_in.
    rewrite He. simpl. by eexists.
Qed.

Lemma C3_error_envelope_witness :
  (∃ pg tag,
     CrossrefSearchClient._parse_page_response
       [("status", PStr "error"); ("message-type", PStr "validation-failure")] 2
       = Ok pg
     ∧ error_page 2 tag pg ∧ tag = PStr "validation-failure" ∧ tag ≠ PNone)
  ∧ (∃ pg, ScopusSearchClient._parse_page_response
             [("error", PStr "quota exceeded")] 2 = Ok pg
           ∧ error_page 2 (PStr "quota exceeded") pg).
Proof.
  split.
  - destruct (C3_error_envelope
                [("status", PStr "error"); ("message-type", PStr "validation-failure")] 2)
      as [H _].
    destruct (H (PStr "error") eq_refl eq_refl) as (pg & tag & Hp & He & Ht & Hn).
    exists pg, tag. split_and!; [done|done|done|]. by apply Hn.
  - destruct (C3_error_envelope [("error", PStr "quota exceeded")] 2) as [_ H].
    exact (H (PStr "quota exceeded") eq_refl).
Defined.

(** ** Next-page resolution on an empty page *)

Lemma dict_item_in {V} k (d : dict V) :
  dict_in k d = true → ∃ v, dict_get k d = Some v ∧ dict_item k d = Ok v.
Proof.
  intros [v Hv]%dict_in_get. exists v. unfold dict_item. by rewrite Hv.
Qed.

(** X8: the Crossref adapter stops on an empty page, whatever
    continuation token the body carries. *)
Lemma crossref_empty_page_stops response_data page pg current_url :
  CrossrefSearchClient._parse_page_response response_data page = Ok pg →
  dict_get "results" pg = Some (PList []) →
  CrossrefSearchClient._get_next_page_url response_data current_url = Ok None.
Proof.
  unfold CrossrefSearchClient._parse_page_response,
    CrossrefSearchClient._get_next_page_url.
  destruct (dict_in "status" response_data && _); [by intros [= <-]|].
  destruct (dict_in "message" response_data) eqn:Hm; simpl; [|by intros [= <-]].
  destruct (dict_item_in _ _ Hm) as (message & _ & ->). simpl.
  destruct message as [| | | |?|d]; simpl; try done.
  intros [= <-]. simpl. by intros [= ->].
Qed.

(** C2 (the Scopus half fails): on a Scopus body whose page parses to an
    empty record list and which still carries a [next] link,
    [_get_next_page_url] returns that link instead of none. *)
Theorem C2_scopus_empty_page_follows_next_link :
  let response_data :=
    [("search-results",
      PDict [("opensearch:totalResults", PStr "0");
             ("entry", PList []);
             ("link", PList [PDict [("@ref", PStr "self"); ("@href", PStr "https://api.elsevier.com/content/search/scopus?start=0")];
                             PDict [("@ref", PStr "next"); ("@href", PStr "https://api.elsevier.com/content/search/scopus?start=25")]])])] in
  (∃ pg, ScopusSearchClient._parse_page_response response_data 0 = Ok pg
         ∧ dict_get "results" pg = Some (PList []))
  ∧ ScopusSearchClient._get_next_page_url response_data
      "https://api.elsevier.com/content/search/scopus?start=0"
    = Ok (Some (PStr "https://api.elsevier.com/content/search/scopus?start=25")).
Proof. split; [eexists; split|]; reflexivity. Qed.

(** ** The Scopus next-page link *)




(** ** The cursor rewrite *)

Lemma startswith_app (p r : string) : Str.startswith p (p +:+ r) = true.
Proof.
  induction p as [|c p IH]; string_step; [done|]. by rewrite decide_True.
Qed.

Lemma startswith_inv (p s : string) :
  Str.startswith p s = true → ∃ r, s = p +:+ r.
Proof.
  revert s. induction p as [|c p IH]; intros s; simpl.
  - intros _. by exists s.
  - destruct s as [|c' s]; [done|].
    destruct (decide (c = c')) as [->|]; [|done].
    intros [r ->]%IH. by exists r.
Qed.

Lemma startswith_app_l (p a b : string) :
  Str.startswith p a = true → Str.startswith p (a +:+ b) = true.
Proof.
  intros [r ->]%startswith_inv. rewrite append_assoc. apply startswith_app.
Qed.

Lemma contains_startswith (sub s : string) :
  Str.startswith sub s = true → Str.contains sub s = true.
Proof. intros H. destruct s; simpl in *; by rewrite H. Qed.

Lemma contains_app_r (sub a b : string) :
  Str.contains sub b = true → Str.contains sub (a +:+ b) = true.
Proof.
  intros Hb. induction a as [|c a IH]; string_step; [done|].
  rewrite IH. apply orb_true_r.
Qed.

Lemma join_snoc sep (l : list string) x :
  l ≠ [] → Str.join sep (l ++ [x]) = Str.join sep l +:+ sep +:+ x.
Proof.
  induction l as [|y l IH]; [done|]. intros _.
  destruct l as [|z l]; [done|].
  change (Str.join sep ((y :: z :: l) ++ [x]))
    with (y +:+ sep +:+ Str.join sep ((z :: l) ++ [x])).
  rewrite IH by done. by rewrite join_cons2, !append_assoc.
Qed.

Lemma filter_fmap_comm {A B} (f : A → B) (P : B → Prop)
    `{!∀ y, Decision (P y)} (l : list A) :
  filter P (f <$> l) = f <$> filter (λ x, P (f x)) l.
Proof.
  induction l as [|x l IH]; [done|]. rewrite fmap_cons.
  destruct (decide (P (f x))).
  - rewrite !filter_cons_True by done. by rewrite fmap_cons, IH.
  - by rewrite !filter_cons_False by done.
Qed.

Lemma dict_wf_filter {V} (P : string * V → Prop) `{!∀ kv, Decision (P kv)}
    (d : dict V) :
  dict_wf d → dict_wf (filter P d).
Proof.
  unfold dict_wf. induction d as [|[k v] d IH]; [done|].
  rewrite fmap_cons. intros [Hk Hd]%NoDup_cons.
  destruct (decide (P (k, v))).
  - rewrite filter_cons_True, fmap_cons by done.
    apply NoDup_cons. split; [|by apply IH].
    intros ([k' v'] & ? & [_ Hin]%list_elem_of_filter)%list_elem_of_fmap.
    simplify_eq/=. apply Hk, list_elem_of_fmap. by exists (k', v').
  - rewrite filter_cons_False by done. by apply IH.
Qed.

(** The pieces of an encoded dictionary. *)
Lemma split_urlencode (d : dict pyval) :
  d ≠ [] → Str.split "&" (Url.urlencode d) = encode_item <$> d.
Proof.
  unfold Url.urlencode. change (λ kv : string * pyval, _) with encode_item.
  induction d as [|kv d IH]; [done|]. intros _.
  destruct d as [|kv' d].
  - simpl. by rewrite split_no_sep by (apply encode_item_plain; sep_mem).
  - rewrite !map_cons, join_cons2, append_cons, append_nil, <-!map_cons.
    rewrite split_app by (apply encode_item_plain; sep_mem).
    by rewrite IH.
Qed.

(** A piece starts with [cursor=] exactly when its key is [cursor]. *)
Lemma startswith_cursor_encode_item kv :
  Str.startswith "cursor=" (encode_item kv) = true ↔ kv.1 = "cursor".
Proof.
  split.
  - intros [r Hr]%startswith_inv.
    assert (Str.split1 "=" (encode_item kv) = ("cursor", Some r)) as Hsplit.
    { rewrite Hr. by apply (split1_app "=" "cursor" r). }
    unfold encode_item in Hsplit.
    rewrite append_cons, append_nil, split1_app in Hsplit
      by (apply quote_plus_plain; sep_mem).
    injection Hsplit as Hk _.
    by rewrite <-(unquote_plus_quote_plus kv.1), Hk.
  - intros Hk. unfold encode_item. rewrite Hk.
    apply (startswith_app "cursor=").
Qed.

Lemma urlencode_with_cursor token (d : dict pyval) :
  url_safe token → without_cursor d ≠ [] →
  Url.urlencode (with_cursor token d)
  = Url.urlencode (without_cursor d) +:+ "&cursor=" +:+ token.
Proof.
  intros Hsafe Hne. unfold Url.urlencode, with_cursor.
  change (λ kv : string * pyval, _) with encode_item.
  rewrite map_app.
  change (map encode_item [("cursor", PStr token)])
    with [encode_item ("cursor", PStr token)].
  rewrite join_snoc by (by destruct (without_cursor d)).
  unfold encode_item at 2. simpl. rewrite Hsafe.
  by rewrite ?append_cons, ?append_nil.
Qed.

Lemma with_cursor_wf token d : dict_wf d → dict_wf (with_cursor token d).
Proof.
  intros Hwf. unfold dict_wf, with_cursor. rewrite fmap_app.
  apply NoDup_app. split_and!.
  - by apply dict_wf_filter.
  - intros k Hk Hc. apply list_elem_of_singleton in Hc as ->.
    apply list_elem_of_fmap in Hk as ([k' v] & Heq & [Hne _]%list_elem_of_filter).
    simpl in *. congruence.
  - apply NoDup_singleton.
Qed.

Lemma with_cursor_get token d :
  dict_get "cursor" (with_cursor token d) = Some (PStr token).
Proof.
  unfold with_cursor.
  assert (dict_get "cursor" (without_cursor d) = None) as Hnone.
  { apply dict_get_None_keys.
    intros ([k v] & ? & [Hk _]%list_elem_of_filter)%list_elem_of_fmap.
    by simplify_eq/=. }
  rewrite <-(dict_set_keys_absent _ _ _ Hnone). apply dict_get_set_eq.
Qed.

Section cursor_rewrite.
Context (base : string) (d : dict pyval) (token : string).
Context (response_data : dict pyval).
Hypothesis base_no_fragment : Str.mem "#" base = false.
Hypothesis base_no_query : Str.mem "?" base = false.
Hypothesis d_wf : dict_wf d.
Hypothesis d_has_cursor : is_Some (dict_get "cursor" d).
Hypothesis d_has_more : without_cursor d ≠ [].
Hypothesis token_safe : url_safe token.
Hypothesis token_given : token ≠ "".
Hypothesis body : has_next_cursor response_data token.

Let current_url := base +:+ "?" +:+ Url.urlencode d.

Lemma d_nonempty : d ≠ [].
Proof. intros ->. by destruct d_has_cursor. Qed.

Lemma current_url_contains_cursor :
  Str.contains "cursor=" current_url = true.
Proof.
  unfold current_url. do 2 apply contains_app_r.
  destruct d_has_cursor as [v Hv].
  apply (dict_get_elem_of _ _ _ d_wf) in Hv.
  unfold Url.urlencode. change (λ kv : string * pyval, _) with encode_item.
  clear -Hv. induction d as [|kv d' IH]; [by apply not_elem_of_nil in Hv|].
  apply elem_of_cons in Hv as [<-|Hv].
  - apply contains_startswith. destruct d' as [|kv' d'].
    + by apply (proj2 (startswith_cursor_encode_item _)).
    + rewrite !map_cons, join_cons2, <-!map_cons.
      by apply startswith_app_l, startswith_cursor_encode_item.
  - destruct d' as [|kv' d']; [by apply not_elem_of_nil in Hv|].
    rewrite !map_cons, join_cons2, <-!map_cons.
    do 2 apply contains_app_r. by apply IH.
Qed.

Lemma remove_cursor_encoded :
  CrossrefSearchClient.remove_cursor current_url
  = Ok (base +:+ "?" +:+ Url.urlencode (without_cursor d)).
Proof.
  unfold CrossrefSearchClient.remove_cursor, current_url.
  rewrite append_cons, append_nil, split1_app by done.
  rewrite split_urlencode by apply d_nonempty.
  rewrite filter_fmap_comm, urlencode_eq. unfold without_cursor.
  assert (filter (λ kv, ¬ Str.startswith "cursor=" (encode_item kv)) d
          = filter (λ kv, kv.1 ≠ "cursor") d) as ->; [|done].
  apply list_filter_iff.
  intros kv. by rewrite <-startswith_cursor_encode_item, Is_true_true.
Qed.

(** On a URL whose query is an encoded dictionary, with a token that
    needs no encoding, the rewrite gives the URL of the dictionary with
    the new cursor: one [cursor] parameter, whose value is the token. *)
Lemma cursor_rewrite_encoded :
  CrossrefSearchClient._get_next_page_url response_data current_url
  = Ok (Some (base +:+ "?" +:+ Url.urlencode (with_cursor token d)))
  ∧ Url.param_values "cursor"
      (base +:+ "?" +:+ Url.urlencode (with_cursor token d)) = [token].
Proof.
  split.
  - destruct body as (message & item & items & Hm & Hi & Hc).
    unfold CrossrefSearchClient._get_next_page_url, dict_in, dict_item.
    rewrite Hm. simpl. rewrite Hc, Hi. simpl.
    rewrite bool_decide_eq_false_2 by done. simpl.
    rewrite current_url_contains_cursor, remove_cursor_encoded. simpl.
    rewrite urlencode_with_cursor by done.
    by rewrite !append_assoc.
  - unfold Url.param_values. rewrite query_of_built_url by done.
    rewrite values_of_urlencode by by apply with_cursor_wf.
    by rewrite with_cursor_get.
Qed.
End cursor_rewrite.

Lemma url_params_query config query params :
  dict_get "query" (CrossrefSearchClient.url_params config query params)
  = Some (PStr query).
Proof.
  unfold CrossrefSearchClient.url_params.
  repeat case_match; rewrite ?dict_get_set_ne by done; apply dict_get_set_eq.
Qed.

Lemma without_cursor_nonempty k v (d : dict pyval) :
  k ≠ "cursor" → dict_wf d → dict_get k d = Some v → without_cursor d ≠ [].
Proof.
  intros Hk Hwf Hget%(dict_get_elem_of _ _ _ Hwf) Hnil.
  assert ((k, v) ∈ without_cursor d) as Hin by by apply list_elem_of_filter.
  rewrite Hnil in Hin. by apply not_elem_of_nil in Hin.
Qed.

Lemma without_cursor_with_cursor token d :
  without_cursor (with_cursor token d) = without_cursor d.
Proof.
  unfold with_cursor, without_cursor. rewrite filter_app.
  rewrite filter_cons_False by (by intros []). rewrite filter_nil, app_nil_r.
  induction d as [|kv d IH]; [done|].
  destruct (decide (kv.1 ≠ "cursor")).
  - rewrite !filter_cons_True by done. by rewrite IH.
  - by rewrite filter_cons_False by done.
Qed.

Lemma with_cursor_with_cursor token token' d :
  with_cursor token' (with_cursor token d) = with_cursor token' d.
Proof.
  unfold with_cursor at 1. rewrite without_cursor_with_cursor. done.
Qed.

(** From the first URL of a run on, with continuation tokens that need
    no encoding, every rewrite gives a URL with one [cursor] parameter,
    the new token. *)
Lemma cursor_rewrite_first_url config query params token response_data :
  dict_wf (cr_default_params config) → dict_wf (default [] params) →
  Str.mem "#" (cr_base_url config) = false →
  Str.mem "?" (cr_base_url config) = false →
  url_safe token → token ≠ "" → has_next_cursor response_data token →
  ∃ url,
    CrossrefSearchClient._get_next_page_url response_data
      (CrossrefSearchClient._build_search_url config query params)
    = Ok (Some url)
    ∧ Url.param_values "cursor" url = [token].
Proof.
  intros Hd Hp Hhash Hq Hsafe Htoken Hbody. eexists.
  apply cursor_rewrite_encoded; try done.
  - by apply url_params_wf.
  - by rewrite url_params_cursor.
  - eapply (without_cursor_nonempty "query"); [done| |apply url_params_query].
    by apply url_params_wf.
Qed.

Lemma cursor_rewrite_next_url base d token token' response_data :
  Str.mem "#" base = false → Str.mem "?" base = false →
  dict_wf d → without_cursor d ≠ [] →
  url_safe token' → token' ≠ "" → has_next_cursor response_data token' →
  ∃ url,
    CrossrefSearchClient._get_next_page_url response_data
      (base +:+ "?" +:+ Url.urlencode (with_cursor token d)) = Ok (Some url)
    ∧ url = base +:+ "?" +:+ Url.urlencode (with_cursor token' d)
    ∧ Url.param_values "cursor" url = [token'].
Proof.
  intros Hhash Hq Hd Hmore Hsafe Htoken Hbody. eexists.
  rewrite <-(without_cursor_with_cursor token d) in Hmore.
  destruct (cursor_rewrite_encoded base (with_cursor token d) token'
              response_data Hhash Hq) as [Hrun Hvalues]; try done.
  - by apply with_cursor_wf.
  - by rewrite with_cursor_get.
  - rewrite with_cursor_with_cursor in Hrun, Hvalues. by split_and!.
Qed.

(** C1 (fails): the new token is appended as it is, not encoded.  From
    the first URL of a run, a token with an ampersand gives a URL with
    two [cursor] parameters, and a token with a plus sign gives a
    [cursor] parameter whose value is not the token. *)
Theorem C1_cursor_rewrite_appends_raw_token :
  CrossrefSearchClient._build_search_url crossref_config "machine learning" None
  = first_url
  ∧ Url.param_values "cursor" first_url = ["*"]
  ∧ (∃ url,
       CrossrefSearchClient._get_next_page_url (crossref_page "a&cursor=b")
         first_url = Ok (Some url)
       ∧ url = "https://api.crossref.org/works?rows=100&query=machine+learning&cursor=a&cursor=b"
       ∧ Url.param_values "cursor" url = ["a"; "b"])
  ∧ (∃ url,
       CrossrefSearchClient._get_next_page_url (crossref_page "AoJ+1/Pm8=")
         first_url = Ok (Some url)
       ∧ url = "https://api.crossref.org/works?rows=100&query=machine+learning&cursor=AoJ+1/Pm8="
       ∧ Url.param_values "cursor" url = ["AoJ 1/Pm8="]).
Proof.
  split_and!; [reflexivity|reflexivity|eexists; split_and!; reflexivity..].
Qed.

(** ** Crossref filters *)

Lemma filter_step_pair acc kv :
  CrossrefSearchFetcher.filter_step acc kv = acc ++ [filter_pair kv].
Proof.
  unfold CrossrefSearchFetcher.filter_step, filter_pair.
  destruct kv as [k [| [|] | | | |]]; reflexivity.
Qed.

Lemma filter_loop_pairs acc filters :
  foldl CrossrefSearchFetcher.filter_step acc filters
  = acc ++ (filter_pair <$> filters).
Proof.
  revert acc. induction filters as [|kv filters IH]; intros acc; simpl.
  - by rewrite app_nil_r.
  - by rewrite IH, filter_step_pair, <-app_assoc.
Qed.

(** C9: with a non-empty [filters] mapping, [search_with_filters] calls
    [fetch] with the query and the refresh flag unchanged and with one
    [filter] parameter, the comma-joined [key:value] pairs with booleans
    as [true]/[false]; a [filter] passed in the keyword arguments is
    replaced by it and every other keyword argument is passed on. *)
Theorem C9_search_with_filters query filters force_refresh kwargs :
  filters ≠ [] →
  dict_wf kwargs →
  let call :=
    CrossrefSearchFetcher.search_with_filters query (Some filters)
      force_refresh kwargs in
  let encoded := PStr (Str.join "," (filter_pair <$> filters)) in
  CrossrefSearchFetcher.fc_query call = query
  ∧ CrossrefSearchFetcher.fc_force_refresh call = force_refresh
  ∧ dict_get "filter" (CrossrefSearchFetcher.fc_params call) = Some encoded
  ∧ filter (λ kv, kv.1 = "filter") (CrossrefSearchFetcher.fc_params call)
    = [("filter", encoded)]
  ∧ ∀ k, k ≠ "filter" →
      dict_get k (CrossrefSearchFetcher.fc_params call) = dict_get k kwargs.
Proof.
  intros Hne Hwf. unfold CrossrefSearchFetcher.search_with_filters. simpl.
  rewrite filter_loop_pairs. simpl.
  destruct filters as [|kv filters]; [done|]. simpl.
  split_and!; [done|done|apply dict_get_set_eq| |].
  - apply dict_wf_filter_key; [by apply dict_set_wf|apply dict_get_set_eq].
  - intros k Hk. by apply dict_get_set_ne.
Qed.

Lemma C9_search_with_filters_witness :
  let call :=
    CrossrefSearchFetcher.search_with_filters "deep learning"
      (Some [("has-abstract", PBool true); ("type", PStr "journal-article");
             ("from-pub-date", PStr "2020-01-01")])
      false [("rows", PInt 200); ("filter", PStr "type:book")] in
  CrossrefSearchFetcher.fc_params call
  = [("rows", PInt 200);
     ("filter", PStr "has-abstract:true,type:journal-article,from-pub-date:2020-01-01")]
  ∧ filter (λ kv, kv.1 = "filter") (CrossrefSearchFetcher.fc_params call)
    = [("filter", PStr "has-abstract:true,type:journal-article,from-pub-date:2020-01-01")].
Proof.
  split; [reflexivity|].
  refine (proj1 (proj2 (proj2 (proj2
    (C9_search_with_filters "deep learning"
       [("has-abstract", PBool true); ("type", PStr "journal-article");
        ("from-pub-date", PStr "2020-01-01")]
       false [("rows", PInt 200); ("filter", PStr "type:book")] _ _))))).
  - discriminate.
  - unfold dict_wf. simpl. apply NoDup_cons. split.
    + intros Hin%list_elem_of_singleton. discriminate.
    + apply NoDup_singleton.
Defined.

(** ** Purging capped cache entries *)

Lemma problematic_capped max_results data :
  (0 <? Z.of_nat (length (ScopusSearchFetcher.problematic max_results data))) = true
  ↔ capped max_results data.
Proof.
  unfold ScopusSearchFetcher.problematic, capped. rewrite Z.ltb_lt.
  split.
  - destruct (filter _ data) as [|r rs] eqn:Hf; simpl; [lia|]. intros _.
    assert (r ∈ filter (λ r, row_data r = None ∧ max_results < row_num_hits r) data)
      as Hr by (rewrite Hf; left).
    apply list_elem_of_filter in Hr as [[? ?] ?]. by exists r.
  - intros (r & Hin & Hnone & Hhits).
    assert (r ∈ filter (λ r, row_data r = None ∧ max_results < row_num_hits r) data)
      as Hr by (by apply list_elem_of_filter).
    destruct (filter _ data); [by apply not_elem_of_nil in Hr|simpl; lia].
Qed.

Section clean_max_hits.
Context (config : ScopusConfig).
Let cap := sc_max_results_per_query config.

Lemma doomed_delete_ne cache item q :
  q ≠ item → doomed cap (delete item cache) q ↔ doomed cap cache q.
Proof. intros Hne. unfold doomed. by rewrite lookup_delete_ne. Qed.

(** The loop over any list of keys: it never raises and writes no log;
    of the keys it visits it deletes the capped entries, and it leaves
    every other entry as it was. *)
Lemma clean_loop_spec items removed cache log :
  ∃ removed' cache',
    ScopusSearchFetcher.clean_loop config items removed cache log
    = (Ok removed', cache', log)
    ∧ (∀ q, q ∈ items → doomed cap cache q → cache' !! q = None)
    ∧ (∀ q, ¬ (q ∈ items ∧ doomed cap cache q) → cache' !! q = cache !! q).
Proof.
  revert removed cache.
  induction items as [|item rest IH]; intros removed cache; simpl.
  - exists removed, cache. split_and!; [done| |done].
    by intros q ?%not_elem_of_nil.
  - unfold mbind at 1, M_bind at 1, LocalCache.get.
    unfold mbind at 1, M_bind at 1, read, mret at 1, M_ret at 1.
    destruct (cache !! item) as [data|] eqn:Hitem.
    + destruct (0 <? Z.of_nat (length _)) eqn:Htest.
      * apply problematic_capped in Htest. fold cap in Htest.
        unfold mbind at 1, M_bind at 1, LocalCache.delete, modify.
        destruct (IH (removed + 1) (delete item cache))
          as (removed' & cache' & -> & Hdel & Hkeep).
        exists removed', cache'. split_and!; [done|..].
        -- intros q Hq Hdoomed. destruct (decide (q = item)) as [->|Hne].
           ++ rewrite Hkeep; [apply lookup_delete_eq|].
              intros [_ (d & Hd & _)]. by rewrite lookup_delete_eq in Hd.
           ++ apply Hdel; [|by apply doomed_delete_ne].
              by apply elem_of_cons in Hq as [?|?].
        -- intros q Hq. destruct (decide (q = item)) as [->|Hne].
           ++ destruct Hq. split; [left|by exists data].
           ++ rewrite Hkeep, lookup_delete_ne; [done|done|].
              intros [? ?%doomed_delete_ne]; [|done].
              apply Hq. split; [by right|done].
      * assert (¬ capped cap data) as Hnot.
        { intros Hc%problematic_capped. unfold cap in Hc. congruence. }
        destruct (IH removed cache) as (removed' & cache' & -> & Hdel & Hkeep).
        exists removed', cache'. split_and!; [done|..].
        -- intros q [->|Hq]%elem_of_cons Hdoomed; [|by apply Hdel].
           destruct Hdoomed as (d & Hd & Hc). congruence.
        -- intros q Hq. apply Hkeep. intros [? ?]. apply Hq. split; [by right|done].
    + destruct (IH removed cache) as (removed' & cache' & -> & Hdel & Hkeep).
      exists removed', cache'. split_and!; [done|..].
      * intros q [->|Hq]%elem_of_cons Hdoomed; [|by apply Hdel].
        destruct Hdoomed as (d & Hd & Hc). congruence.
      * intros q Hq. apply Hkeep. intros [? ?]. apply Hq. split; [by right|done].
Qed.
End clean_max_hits.

(** C7: [clean_max_hits] returns normally; it deletes the entries that
    hold a row with a null payload and a declared total above
    [max_results_per_query], and every other entry of the cache is the
    same afterwards. *)
Theorem C7_clean_max_hits config cache log :
  ∃ cache' log',
    ScopusSearchFetcher.clean_max_hits config cache log = (Ok (), cache', log')
    ∧ (∀ query data,
         cache !! query = Some data →
         capped (sc_max_results_per_query config) data →
         cache' !! query = None)
    ∧ (∀ query,
         (∀ data, cache !! query = Some data →
                  ¬ capped (sc_max_results_per_query config) data) →
         cache' !! query = cache !! query).
Proof.
  unfold ScopusSearchFetcher.clean_max_hits.
  unfold mbind at 1, M_bind at 1, LocalCache.list_queries.
  unfold mbind at 1, M_bind at 1, read, mret at 1, M_ret at 1.
  destruct (clean_loop_spec config (map_to_list cache).*1 0 cache log)
    as (removed & cache' & Hloop & Hdel & Hkeep).
  unfold mbind at 1, M_bind at 1. rewrite Hloop.
  exists cache'.
  assert (∃ log', when (0 <? removed)
            (emit (LogInfo ("Removed " +:+ pretty removed
                            +:+ " queries that exceeded max_hits"))) cache' log
          = (Ok (), cache', log')) as [log' ->].
  { unfold when. destruct (0 <? removed); by eexists. }
  exists log'. split_and!; [done|..].
  - intros query data Hq Hc. apply Hdel; [|by exists data].
    apply list_elem_of_fmap. exists (query, data).
    split; [done|]. by apply elem_of_map_to_list.
  - intros query Hq. apply Hkeep. intros [_ (data & Hd & Hc)].
    by apply (Hq data).
Qed.

Lemma C7_clean_max_hits_witness :
  ∃ cache' log',
    ScopusSearchFetcher.clean_max_hits scopus_config cache_example []
    = (Ok (), cache', log')
    ∧ cache' !! "TITLE(network)" = None
    ∧ cache' !! "TITLE(zymurgy)" = Some complete_run.
Proof.
  destruct (C7_clean_max_hits scopus_config cache_example [])
    as (cache' & log' & Hrun & Hdel & Hkeep).
  exists cache', log'. split_and!; [done|..].
  - apply (Hdel "TITLE(network)" capped_run); [reflexivity|].
    eexists. split; [left|]. split; [reflexivity|]. simpl. lia.
  - rewrite Hkeep; [reflexivity|].
    intros data [= <-] (r & Hr & Hnone & _).
    apply list_elem_of_singleton in Hr as ->. discriminate.
Defined.

(** * Further properties of the adapters *)

(** ** What the first URL carries *)

Section first_url_parameters.
Context (config : CrossrefConfig) (query : string) (params : option (dict pyval)).
Hypothesis default_params_wf : dict_wf (cr_default_params config).
Hypothesis params_wf : dict_wf (default [] params).

Let merged := dict_merge (cr_default_params config) (default [] params).
Let param_str := Url.urlencode (CrossrefSearchClient.url_params config query params).

Lemma url_params_mailto :
  dict_get "mailto" (CrossrefSearchClient.url_params config query params)
  = match dict_get "mailto" merged with
    | Some v => Some v
    | None => if truthy (PStr (cr_mailto config))
              then Some (PStr (cr_mailto config)) else None
    end.
Proof.
  unfold CrossrefSearchClient.url_params. fold merged.
  set (with_query := dict_set "query" (PStr query) merged).
  assert (dict_get "mailto" with_query = dict_get "mailto" merged) as Hq
    by by apply dict_get_set_ne.
  assert (∀ d : dict pyval,
            dict_get "mailto" (if negb (dict_in "cursor" d)
                               then dict_set "cursor" (PStr "*") d else d)
            = dict_get "mailto" d) as Hc.
  { intros d. destruct (negb _); [by apply dict_get_set_ne|done]. }
  rewrite Hc. unfold dict_in. rewrite Hq.
  destruct (dict_get "mailto" merged) as [v|] eqn:Hm.
  - by rewrite andb_false_r, Hq.
  - rewrite andb_true_r. destruct (truthy (PStr (cr_mailto config))).
    + apply dict_get_set_eq.
    + by rewrite Hq.
Qed.

Lemma url_params_other k :
  k ≠ "query" → k ≠ "mailto" → k ≠ "cursor" →
  dict_get k (CrossrefSearchClient.url_params config query params)
  = dict_get k merged.
Proof.
  intros Hq Hm Hc. unfold CrossrefSearchClient.url_params. fold merged.
  repeat case_match; by rewrite ?dict_get_set_ne by done.
Qed.
End first_url_parameters.

(** X1: whatever the query text holds (spaces, [&], [=], [%], letters
    outside ASCII), the URL carries it as its one [query] parameter, and
    that parameter decodes to the text; a [query] among the caller's
    parameters is replaced by it. *)
Theorem build_search_url_carries_query config query params :
  dict_wf (cr_default_params config) →
  dict_wf (default [] params) →
  ∃ param_str,
    CrossrefSearchClient._build_search_url config query params
    = cr_base_url config +:+ "?" +:+ param_str
    ∧ Url.values_of "query" param_str = [query].
Proof.
  intros Hd Hp. eexists. split; [done|].
  rewrite values_of_urlencode by by apply url_params_wf.
  by rewrite url_params_query.
Qed.

Lemma build_search_url_carries_query_witness :
  ∃ param_str,
    CrossrefSearchClient._build_search_url crossref_config
      "R&D = 100% (solar)" (Some [("query", PStr "ignored"); ("rows", PInt 5)])
    = "https://api.crossref.org/works?" +:+ param_str
    ∧ Url.values_of "query" param_str = ["R&D = 100% (solar)"].
Proof.
  apply (build_search_url_carries_query crossref_config "R&D = 100% (solar)"
           (Some [("query", PStr "ignored"); ("rows", PInt 5)])).
  - unfold dict_wf. simpl. apply NoDup_singleton.
  - unfold dict_wf. simpl. apply NoDup_cons. split; [|apply NoDup_singleton].
    intros Hin%list_elem_of_singleton. discriminate.
Defined.

(** X2: the [mailto] parameter of the URL is the caller's when the
    caller (or the default parameters) gives one; else it is the
    configured address; and a client without an address sends none. *)
Theorem build_search_url_mailto config query params :
  dict_wf (cr_default_params config) →
  dict_wf (default [] params) →
  let merged := dict_merge (cr_default_params config) (default [] params) in
  let param_str :=
    Url.urlencode (CrossrefSearchClient.url_params config query params) in
  (∀ v, dict_get "mailto" merged = Some v →
        Url.values_of "mailto" param_str = [py_str v])
  ∧ (dict_get "mailto" merged = None → cr_mailto config ≠ "" →
     Url.values_of "mailto" param_str = [cr_mailto config])
  ∧ (dict_get "mailto" merged = None → cr_mailto config = "" →
     Url.values_of "mailto" param_str = []).
Proof.
  intros Hd Hp merged param_str. unfold param_str.
  rewrite values_of_urlencode by by apply url_params_wf.
  rewrite url_params_mailto. fold merged. split_and!.
  - by intros v ->.
  - intros -> Hm. simpl. by rewrite bool_decide_eq_false_2.
  - by intros -> ->.
Qed.

Lemma build_search_url_mailto_witness :
  Url.values_of "mailto"
    (Url.urlencode
       (CrossrefSearchClient.url_params
          (mkCrossrefConfig "librarian@example.org"
             "https://api.crossref.org/works" 10 20 10000 3 100
             [("rows", PInt 100)])
          "solar" None)) = ["librarian@example.org"]
  ∧ Url.values_of "mailto"
      (Url.urlencode
         (CrossrefSearchClient.url_params crossref_config "solar"
            (Some [("mailto", PStr "other@example.org")])))
    = ["other@example.org"]
  ∧ Url.values_of "mailto"
      (Url.urlencode (CrossrefSearchClient.url_params crossref_config "solar" None))
    = [].
Proof.
  assert (∀ k (v : pyval), dict_wf [(k, v)]) as Hone.
  { intros k v. unfold dict_wf. simpl. apply NoDup_singleton. }
  split_and!.
  - apply (build_search_url_mailto
             (mkCrossrefConfig "librarian@example.org" _ _ _ _ _ _ _) "solar" None);
      [apply Hone|apply NoDup_nil_2|reflexivity|discriminate].
  - apply (proj1 (build_search_url_mailto crossref_config "solar"
                    (Some [("mailto", PStr "other@example.org")])
                    (Hone _ _) (Hone _ _)) (PStr "other@example.org")).
    reflexivity.
  - apply (build_search_url_mailto crossref_config "solar" None);
      [apply Hone|apply NoDup_nil_2|reflexivity|reflexivity].
Defined.

(** X3: for every parameter name other than [query], [mailto] and
    [cursor], the URL carries the caller's value when the caller gives
    one, else the configured default, else nothing: the caller's
    parameters override the defaults and the rest of the defaults is
    kept. *)
Theorem build_search_url_overrides config query params name :
  dict_wf (cr_default_params config) →
  dict_wf (default [] params) →
  name ≠ "query" → name ≠ "mailto" → name ≠ "cursor" →
  Url.values_of name
    (Url.urlencode (CrossrefSearchClient.url_params config query params))
  = match dict_get name (default [] params) with
    | Some v => [py_str v]
    | None => match dict_get name (cr_default_params config) with
              | Some v => [py_str v]
              | None => []
              end
    end.
Proof.
  intros Hd Hp Hq Hm Hc.
  rewrite values_of_urlencode by by apply url_params_wf.
  rewrite url_params_other, dict_get_merge_wf by done.
  by destruct (dict_get name (default [] params)).
Qed.

Lemma build_search_url_overrides_witness :
  Url.values_of "rows"
    (Url.urlencode
       (CrossrefSearchClient.url_params crossref_config "solar"
          (Some [("rows", PInt 5); ("sort", PStr "published")]))) = ["5"]
  ∧ Url.values_of "rows"
      (Url.urlencode
         (CrossrefSearchClient.url_params crossref_config "solar"
            (Some [("sort", PStr "published")]))) = ["100"].
Proof.
  assert (dict_wf (cr_default_params crossref_config)) as Hd.
  { unfold dict_wf. simpl. apply NoDup_singleton. }
  split.
  - apply (build_search_url_overrides crossref_config "solar"
             (Some [("rows", PInt 5); ("sort", PStr "published")]) "rows" Hd);
      try discriminate.
    unfold dict_wf. simpl. apply NoDup_cons. split; [|apply NoDup_singleton].
    intros Hin%list_elem_of_singleton. discriminate.
  - apply (build_search_url_overrides crossref_config "solar"
             (Some [("sort", PStr "published")]) "rows" Hd);
      try discriminate.
    unfold dict_wf. simpl. apply NoDup_singleton.
Defined.

(** ** More on the Crossref next-page URL *)

Lemma with_cursor_get_ne token name (d : dict pyval) :
  name ≠ "cursor" → dict_get name (with_cursor token d) = dict_get name d.
Proof.
  intros Hne. unfold with_cursor, without_cursor.
  induction d as [|[k v] d IH]; simpl.
  - by rewrite decide_False.
  - destruct (decide (k = "cursor")) as [->|Hk].
    + rewrite filter_cons_False by (simpl; by intros []).
      by rewrite decide_False.
    + rewrite filter_cons_True by done. simpl.
      by destruct (decide (k = name)).
Qed.

Lemma split1_mem c (s : string) :
  Str.mem c s = true → ∃ a b, Str.split1 c s = (a, Some b).
Proof.
  induction s as [|x s IH]; simpl; [done|].
  destruct (decide (x = c)); [by eexists _, _|].
  intros (a & b & ->)%IH. by eexists _, _.
Qed.

(** X4: on a URL whose query string is an encoded dictionary with a
    cursor and at least one other parameter (every URL the client builds
    and every URL this rewrite returns is one), and with a token that
    needs no encoding, the rewrite changes the cursor and nothing else:
    the new URL has one [cursor] parameter, the token, and every other
    parameter has the values it had. *)
Theorem cursor_rewrite_replaces_only_cursor base d token response_data :
  Str.mem "#" base = false → Str.mem "?" base = false →
  dict_wf d → is_Some (dict_get "cursor" d) → without_cursor d ≠ [] →
  url_safe token → token ≠ "" → has_next_cursor response_data token →
  ∃ url,
    CrossrefSearchClient._get_next_page_url response_data
      (base +:+ "?" +:+ Url.urlencode d) = Ok (Some url)
    ∧ Url.param_values "cursor" url = [token]
    ∧ ∀ name, name ≠ "cursor" →
        Url.param_values name url
        = Url.param_values name (base +:+ "?" +:+ Url.urlencode d).
Proof.
  intros Hhash Hq Hwf Hcur Hmore Hsafe Htoken Hbody.
  destruct (cursor_rewrite_encoded base d token response_data) as [Hrun Hone];
    try done.
  eexists. split_and!; [done..|].
  intros name Hname. unfold Url.param_values.
  rewrite !query_of_built_url by done.
  rewrite !values_of_urlencode by (done || by apply with_cursor_wf).
  by rewrite with_cursor_get_ne.
Qed.

Lemma cursor_rewrite_replaces_only_cursor_witness :
  ∃ url,
    CrossrefSearchClient._get_next_page_url (crossref_page "AoJ8x-_.~9")
      first_url = Ok (Some url)
    ∧ Url.param_values "cursor" url = ["AoJ8x-_.~9"]
    ∧ Url.param_values "query" url = ["machine learning"]
    ∧ Url.param_values "rows" url = ["100"].
Proof.
  assert (dict_wf (CrossrefSearchClient.url_params crossref_config
                     "machine learning" None)) as Hwf.
  { apply url_params_wf. unfold dict_wf. simpl. apply NoDup_singleton. }
  assert (has_next_cursor (crossref_page "AoJ8x-_.~9") "AoJ8x-_.~9") as Hbody
    by by eexists _, _, _.
  destruct (cursor_rewrite_replaces_only_cursor "https://api.crossref.org/works"
              (CrossrefSearchClient.url_params crossref_config "machine learning" None)
              "AoJ8x-_.~9" (crossref_page "AoJ8x-_.~9")
              eq_refl eq_refl Hwf)
    as (url & Hrun & Hcursor & Hrest);
    [by eexists|discriminate|reflexivity|discriminate|exact Hbody|].
  exists url. split_and!; [done|done|..].
  - by rewrite (Hrest "query").
  - by rewrite (Hrest "rows").
Defined.

(** X5: the rewrite never adds a [?]: a URL that contains [cursor=] but
    no [?] cannot be split into base and parameters, and the method
    raises [ValueError] instead of returning a URL. *)
Theorem next_page_url_without_query_raises response_data current_url token :
  has_next_cursor response_data token → token ≠ "" →
  Str.contains "cursor=" current_url = true →
  Str.mem "?" current_url = false →
  ∃ msg,
    CrossrefSearchClient._get_next_page_url response_data current_url
    = Raise (ValueError msg).
Proof.
  intros (message & item & items & Hm & Hi & Hc) Htoken Hcontains Hq.
  unfold CrossrefSearchClient._get_next_page_url, dict_in, dict_item.
  rewrite Hm. simpl. rewrite Hc, Hi. simpl.
  rewrite bool_decide_eq_false_2 by done. simpl. rewrite Hcontains.
  unfold CrossrefSearchClient.remove_cursor. rewrite split1_no_sep by done.
  by eexists.
Qed.

Lemma next_page_url_without_query_raises_witness :
  ∃ msg,
    CrossrefSearchClient._get_next_page_url (crossref_page "AoJ8")
      "https://api.crossref.org/works/cursor=old" = Raise (ValueError msg).
Proof.
  apply (next_page_url_without_query_raises (crossref_page "AoJ8")
           "https://api.crossref.org/works/cursor=old" "AoJ8");
    [by eexists _, _, _|done|reflexivity|reflexivity].
Defined.

(** X6: for a body whose message is a mapping with a list of items,
    pagination stops (the method returns none) exactly when the list is
    empty or the continuation token is missing, null or empty; a failing
    [status] in the body plays no part. *)
Theorem crossref_next_page_none_iff response_data current_url message items :
  dict_get "message" response_data = Some (PDict message) →
  default (PList []) (dict_get "items" message) = PList items →
  CrossrefSearchClient._get_next_page_url response_data current_url = Ok None
  ↔ items = []
    ∨ truthy (default PNone (dict_get "next-cursor" message)) = false.
Proof.
  intros Hm Hi.
  unfold CrossrefSearchClient._get_next_page_url, dict_in, dict_item.
  rewrite Hm. simpl. rewrite Hi. simpl.
  destruct items as [|item items]; simpl; [by split; [left|]|].
  destruct (truthy (default PNone (dict_get "next-cursor" message))) eqn:Ht.
  - split; [|by intros [?|?]]. intros Hnone.
    destruct (Str.contains "cursor=" current_url); simpl in Hnone; [|done].
    by destruct (CrossrefSearchClient.remove_cursor current_url).
  - by split; [right|].
Qed.

Lemma crossref_next_page_none_iff_witness :
  CrossrefSearchClient._get_next_page_url
    [("status", PStr "ok");
     ("message", PDict [("items", PList [PDict []]); ("next-cursor", PNone)])]
    first_url = Ok None
  ∧ CrossrefSearchClient._get_next_page_url
      [("status", PStr "ok");
       ("message", PDict [("items", PList []); ("next-cursor", PStr "AoJ8")])]
      first_url = Ok None.
Proof.
  split.
  - apply (crossref_next_page_none_iff _ first_url
             [("items", PList [PDict []]); ("next-cursor", PNone)] [PDict []]);
      [reflexivity|reflexivity|by right].
  - apply (crossref_next_page_none_iff _ first_url
             [("items", PList []); ("next-cursor", PStr "AoJ8")] []);
      [reflexivity|reflexivity|by left].
Defined.

(** X7: parsing and next-page resolution agree on the token: when the
    page parsed from a body has records and a cursor, the next URL for
    that body ends in [&cursor=] and that cursor. *)
Theorem crossref_next_url_uses_parsed_cursor
    response_data page pg current_url item items cursor :
  CrossrefSearchClient._parse_page_response response_data page = Ok pg →
  dict_get "results" pg = Some (PList (item :: items)) →
  dict_get "cursor" pg = Some cursor → truthy cursor = true →
  Str.mem "?" current_url = true →
  ∃ prefix,
    CrossrefSearchClient._get_next_page_url response_data current_url
    = Ok (Some (prefix +:+ "&cursor=" +:+ py_str cursor)).
Proof.
  unfold CrossrefSearchClient._parse_page_response,
    CrossrefSearchClient._get_next_page_url.
  destruct (dict_in "status" response_data && _); [by intros [= <-]|].
  destruct (dict_in "message" response_data) eqn:Hm; simpl; [|by intros [= <-]].
  destruct (dict_item_in _ _ Hm) as (message & _ & ->). simpl.
  destruct message as [| | | |?|d]; simpl; try done.
  intros [= <-]. simpl. intros [= ->] [= ->] Ht Hq. simpl. rewrite Ht.
  destruct (Str.contains "cursor=" current_url); simpl; [|by eexists].
  unfold CrossrefSearchClient.remove_cursor.
  destruct (split1_mem _ _ Hq) as (a & b & ->). simpl. by eexists.
Qed.

Lemma crossref_next_url_uses_parsed_cursor_witness :
  ∃ prefix,
    CrossrefSearchClient._get_next_page_url (crossref_page "AoJ+1/Pm8=") first_url
    = Ok (Some (prefix +:+ "&cursor=" +:+ "AoJ+1/Pm8=")).
Proof.
  destruct (CrossrefSearchClient._parse_page_response (crossref_page "AoJ+1/Pm8=") 0)
    as [pg|e] eqn:Hparse; [|discriminate].
  apply (crossref_next_url_uses_parsed_cursor (crossref_page "AoJ+1/Pm8=") 0 pg
           first_url (PDict [("DOI", PStr "10.1000/182")]) []
           (PStr "AoJ+1/Pm8=") Hparse);
    injection Hparse as <-; reflexivity.
Defined.

(** ** Examples for the empty page and for missing headers *)

Lemma crossref_empty_page_stops_witness :
  CrossrefSearchClient._get_next_page_url
    [("status", PStr "ok");
     ("message", PDict [("total-results", PInt 150); ("items", PList []);
                        ("next-cursor", PStr "AoJ8")])]
    first_url = Ok None.
Proof.
  eapply (crossref_empty_page_stops _ 2); reflexivity.
Defined.

Lemma scopus_update_without_reset_witness :
  ∃ self' log',
    ScopusRateLimiter.update_from_headers
      [("X-RateLimit-Limit", "20000"); ("X-RateLimit-Remaining", "n/a")]
      fresh_limiter [] = (Ok (), self', log').
Proof. by apply scopus_update_without_reset. Defined.

Lemma crossref_update_without_interval_witness :
  ∃ self' log',
    CrossrefRateLimiter.update_from_headers
      [("X-Rate-Limit-Limit", "fifty")] fresh_limiter [] = (Ok (), self', log').
Proof. by apply crossref_update_without_interval. Defined.

(** ** More on the rate-limit headers *)





(** X13: whatever the headers are and however the call ends, the
    Crossref limiter leaves the remaining quota and the reset time as they
    were, and it only ever adds to the log. *)
Theorem crossref_update_keeps_quota_fields headers self log :
  ∃ r self' added,
    CrossrefRateLimiter.update_from_headers headers self log
    = (r, self', log ++ added)
    ∧ api_remaining self' = api_remaining self
    ∧ api_reset_time self' = api_reset_time self
    ∧ (api_rate_limit self' = api_rate_limit self
       ∨ ∃ v, dict_get "X-Rate-Limit-Limit" headers = Some v
              ∧ api_rate_limit self' = int_literal v).
Proof.
  unfold CrossrefRateLimiter.update_from_headers, try_except,
    CrossrefRateLimiter.update_body, when, dict_in, dict_item, int_of_str,
    opt_truediv, int_truediv.
  unfold mbind, M_bind, lift, modify, emit, mret, M_ret, read.
  repeat case_match; simplify_eq/=;
    (first
       [ eexists _, _, []; rewrite app_nil_r; split_and!;
         [reflexivity|reflexivity|reflexivity|]
       | eexists _, _, [_]; split_and!;
         [reflexivity|reflexivity|reflexivity|] ]);
    first [by left | right; eexists; split; [reflexivity|simpl; congruence]].
Qed.

(** ** Parsed pages *)

(** X14: the Crossref parser never raises on a body whose [message], if
    it has one, is a mapping.  It returns the given page index, and
    either an error page without a cursor, or a page without an error tag
    whose total, records and cursor are the message's [total-results],
    [items] and [next-cursor], with 0, the empty list and null standing in
    for a missing key. *)
Theorem crossref_parse_page_shape response_data page :
  (∀ v, dict_get "message" response_data = Some v → is_mapping v) →
  ∃ pg,
    CrossrefSearchClient._parse_page_response response_data page = Ok pg
    ∧ dict_get "page" pg = Some (PInt page)
    ∧ ((∃ tag, error_page page tag pg ∧ dict_get "cursor" pg = None)
       ∨ (∃ message,
            dict_get "message" response_data = Some (PDict message)
            ∧ dict_get "error" pg = None
            ∧ dict_get "total_results" pg
              = Some (default (PInt 0) (dict_get "total-results" message))
            ∧ dict_get "results" pg
              = Some (default (PList []) (dict_get "items" message))
            ∧ dict_get "cursor" pg
              = Some (default PNone (dict_get "next-cursor" message)))).
Proof.
  intros Hmap. unfold CrossrefSearchClient._parse_page_response.
  destruct (dict_in "status" response_data && _).
  { eexists. split_and!; [done|done|]. left. by eexists. }
  destruct (dict_in "message" response_data) eqn:Hm; simpl.
  2:{ eexists. split_and!; [done|done|]. left. by eexists. }
  destruct (dict_item_in _ _ Hm) as (message & Hget & ->).
  destruct (Hmap _ Hget) as [m ->]. simpl.
  eexists. split_and!; [done|done|]. right. by exists m.
Qed.

Lemma crossref_parse_page_shape_witness :
  ∃ pg,
    CrossrefSearchClient._parse_page_response
      [("status", PStr "ok"); ("message", PDict [("items", PList [PDict []])])] 4
    = Ok pg
    ∧ dict_get "page" pg = Some (PInt 4)
    ∧ dict_get "total_results" pg = Some (PInt 0)
    ∧ dict_get "results" pg = Some (PList [PDict []])
    ∧ dict_get "cursor" pg = Some PNone.
Proof.
  destruct (crossref_parse_page_shape
              [("status", PStr "ok"); ("message", PDict [("items", PList [PDict []])])] 4)
    as (pg & Hrun & Hpage & Hshape).
  { intros v [= <-]. by eexists. }
  exists pg. split; [done|]. injection Hrun as <-. by split_and!.
Defined.

(** X15: every page the Scopus parser returns has the given page index
    and an integer total; a page without an error tag has a null cursor,
    since Scopus pages by link. *)
Theorem scopus_parse_page_shape response_data page pg :
  ScopusSearchClient._parse_page_response response_data page = Ok pg →
  dict_get "page" pg = Some (PInt page)
  ∧ (∃ n, dict_get "total_results" pg = Some (PInt n))
  ∧ (dict_get "error" pg = None → dict_get "cursor" pg = Some PNone).
Proof.
  unfold ScopusSearchClient._parse_page_response.
  destruct (dict_in "error" response_data).
  { intros [= <-]. split_and!; [done|by eexists|done]. }
  destruct (dict_in "search-results" response_data) eqn:Hs; simpl.
  2:{ intros [= <-]. split_and!; [done|by eexists|done]. }
  destruct (dict_item_in _ _ Hs) as (sr & _ & ->). simpl.
  destruct sr as [| | | | |d]; simpl; try done.
  destruct (py_int _) as [n|]; simpl; [|done].
  intros [= <-]. split_and!; [done|by eexists|done].
Qed.

Lemma scopus_parse_page_shape_witness :
  ∃ pg,
    ScopusSearchClient._parse_page_response
      [("search-results",
        PDict [("opensearch:totalResults", PStr "80");
               ("entry", PList [PDict [("eid", PStr "2-s2.0-1")]])])] 3 = Ok pg
    ∧ dict_get "page" pg = Some (PInt 3)
    ∧ dict_get "total_results" pg = Some (PInt 80)
    ∧ dict_get "cursor" pg = Some PNone.
Proof.
  eexists. split; [reflexivity|].
  destruct (scopus_parse_page_shape
              [("search-results",
                PDict [("opensearch:totalResults", PStr "80");
                       ("entry", PList [PDict [("eid", PStr "2-s2.0-1")]])])] 3 _
              eq_refl) as (Hpage & _ & Hcursor).
  split_and!; [exact Hpage|reflexivity|by apply Hcursor].
Defined.



(** ** More on the Crossref fetcher *)





(** X19: a [mailto] that is a non-empty string without an [@] hides the
    [email] field of the same file: the file is passed over without a
    word in the log, and the search goes on with the file in the key
    directory. *)
Theorem load_email_bad_mailto_hides_email {S} env api_key_dir (s : S) log d m :
  file env "crossref.yaml" = Yaml (PDict d) →
  dict_get "mailto" d = Some (PStr m) →
  m ≠ "" → Str.mem "@" m = false →
  CrossrefSearchFetcher._load_email env api_key_dir s log
  = CrossrefSearchFetcher.load_email_loop env
      [expanduser env api_key_dir +:+ "/crossref.yaml"] s log.
Proof.
  intros Hf Hm Hne Hat.
  unfold CrossrefSearchFetcher._load_email, CrossrefSearchFetcher.key_paths.
  cbn [CrossrefSearchFetcher.load_email_loop]. unfold path_exists at 1.
  rewrite Hf.
  unfold try_except, CrossrefSearchFetcher.load_email_body, load_yaml.
  unfold mbind at 1, M_bind at 1.
  unfold mbind, M_bind, lift, emit, mret, M_ret. rewrite Hf. simpl.
  rewrite Hm. simpl. rewrite (bool_decide_eq_false_2 (m = "")) by done.
  simpl. rewrite ?(bool_decide_eq_false_2 (m = "")) by done.
  by rewrite Hat.
Qed.

Lemma load_email_bad_mailto_hides_email_witness :
  CrossrefSearchFetcher._load_email
    (mkEnv "/home/user"
       (λ path, if decide (path = "crossref.yaml")
                then Yaml (PDict [("mailto", PStr "the librarian");
                                  ("email", PStr "librarian@example.org")])
                else Absent))
    "~/keys" () []
  = (Ok None, (),
     [LogInfo "No crossref.yaml found - using public pool (works fine, just slower)"]).
Proof.
  rewrite (load_email_bad_mailto_hides_email _ "~/keys" () []
             [("mailto", PStr "the librarian"); ("email", PStr "librarian@example.org")]
             "the librarian"); done.
Defined.

(** X20: a fetcher given a non-empty address does not look at any file:
    in every environment it builds the same configuration, without the
    public-pool warning, with that address, the polite-pool default rate
    10.0 unless a rate is passed, and [max_hits] taking precedence over
    [max_results_per_query] as the cap. *)
Theorem crossref_init_explicit_mailto {S} env api_key_dir kw (s : S) log m :
  m ≠ "" →
  ∃ config,
    CrossrefSearchFetcher.__init__ env (Some m) api_key_dir kw s log
    = (Ok config, s, log)
    ∧ (∀ env' api_key_dir',
         CrossrefSearchFetcher.__init__ env' (Some m) api_key_dir' kw s log
         = (Ok config, s, log))
    ∧ cr_mailto config = m
    ∧ cr_requests_per_second config
      = default (10 : Q) (CrossrefSearchFetcher.kw_requests_per_second kw)
    ∧ cr_max_results_per_query config
      = match CrossrefSearchFetcher.kw_max_hits kw with
        | Some n => n
        | None => default 10000 (CrossrefSearchFetcher.kw_max_results_per_query kw)
        end
    ∧ cr_default_params config
      = [("rows", PInt (default 100 (CrossrefSearchFetcher.kw_rows_per_page kw)))].
Proof.
  intros Hm. unfold CrossrefSearchFetcher.__init__.
  unfold mbind, M_bind, emit, mret, M_ret. simpl.
  rewrite bool_decide_eq_false_2 by done. simpl.
  eexists. by split_and!.
Qed.

Lemma crossref_init_explicit_mailto_witness :
  ∃ config,
    CrossrefSearchFetcher.__init__ env_with_mailto (Some "me@example.org")
      "~/keys"
      (CrossrefSearchFetcher.mkKwargs None (Some 500) (Some 2000) None None) () []
    = (Ok config, (), [])
    ∧ cr_mailto config = "me@example.org"
    ∧ cr_requests_per_second config = (10 : Q)
    ∧ cr_max_results_per_query config = 500.
Proof.
  destruct (crossref_init_explicit_mailto env_with_mailto "~/keys"
              (CrossrefSearchFetcher.mkKwargs None (Some 500) (Some 2000) None None)
              () [] "me@example.org")
    as (config & Hrun & _ & Hmail & Hrate & Hcap & _); [done|].
  by exists config.
Defined.

(** X21: the filters survive the way into the URL: when the query and
    parameters of the call [search_with_filters] makes are given to
    [_build_search_url], the URL has one [filter] parameter and it decodes
    to the comma-joined [key:value] text. *)
Theorem filters_reach_the_url config query filters force_refresh kwargs :
  filters ≠ [] →
  dict_wf kwargs →
  dict_wf (cr_default_params config) →
  let call :=
    CrossrefSearchFetcher.search_with_filters query (Some filters)
      force_refresh kwargs in
  Url.values_of "filter"
    (Url.urlencode
       (CrossrefSearchClient.url_params config
          (CrossrefSearchFetcher.fc_query call)
          (Some (CrossrefSearchFetcher.fc_params call))))
  = [Str.join "," (filter_pair <$> filters)].
Proof.
  intros Hne Hkw Hd call.
  assert (CrossrefSearchFetcher.fc_params call
          = dict_set "filter" (PStr (Str.join "," (filter_pair <$> filters))) kwargs)
    as Hparams.
  { unfold call, CrossrefSearchFetcher.search_with_filters. simpl.
    rewrite filter_loop_pairs. simpl. by destruct filters. }
  assert (dict_wf (default [] (Some (CrossrefSearchFetcher.fc_params call))))
    as Hwf by (rewrite Hparams; simpl; by apply dict_set_wf).
  rewrite values_of_urlencode by by apply url_params_wf.
  rewrite url_params_other, dict_get_merge_wf by done.
  rewrite Hparams. simpl. by rewrite dict_get_set_eq.
Qed.

Lemma filters_reach_the_url_witness :
  Url.values_of "filter"
    (Url.urlencode
       (CrossrefSearchClient.url_params crossref_config "deep learning"
          (Some (CrossrefSearchFetcher.fc_params
                   (CrossrefSearchFetcher.search_with_filters "deep learning"
                      (Some [("has-abstract", PBool true);
                             ("from-pub-date", PStr "2020-01-01")])
                      false [("rows", PInt 200)])))))
  = ["has-abstract:true,from-pub-date:2020-01-01"].
Proof.
  apply (filters_reach_the_url crossref_config "deep learning"
           [("has-abstract", PBool true); ("from-pub-date", PStr "2020-01-01")]
           false [("rows", PInt 200)]); [done|..];
    unfold dict_wf; simpl; apply NoDup_singleton.
Defined.

(** X22: [search_by_doi] never raises, whatever the request does (it may
    raise, return nothing, or return a body that is not JSON).  It asks
    for one URL, the DOI appended as it is to the works URL (and the
    configured address after it), and returns
    something other than none only when the request returned an [ok]
    response whose body is a mapping, and then the [message] of that
    mapping. *)
Theorem search_by_doi_total {S} config
    (_make_request : string → M S (option Response)) doi (s : S) log :
  ∃ v s' log',
    CrossrefSearchFetcher.search_by_doi config _make_request doi s log
    = (Ok v, s', log')
    ∧ (v ≠ PNone →
       ∃ r d,
         _make_request (CrossrefSearchFetcher.doi_url config doi) s log
         = (Ok (Some r), s', log')
         ∧ resp_ok r = true
         ∧ resp_json r = Ok (PDict d)
         ∧ dict_get "message" d = Some v).
Proof.
  unfold CrossrefSearchFetcher.search_by_doi, try_except,
    CrossrefSearchFetcher.search_by_doi_body.
  unfold mbind at 1, M_bind at 1. unfold mbind at 1, M_bind at 1.
  destruct (_make_request _ s log) as [[[[r|]|e] s1] l1]; simpl;
    try by eexists _, _, _.
  destruct (resp_ok r) eqn:Hok; simpl; [|by eexists _, _, _].
  unfold mbind, M_bind, lift, emit, mret, M_ret.
  destruct (resp_json r) as [data|e] eqn:Hjson; simpl; [|by eexists _, _, _].
  destruct data as [| | |str|l|d]; simpl; try by eexists _, _, _.
  - destruct (Str.contains "message" str); by eexists _, _, _.
  - destruct (existsb _ l); by eexists _, _, _.
  - unfold dict_in, dict_item.
    destruct (dict_get "message" d) as [m|] eqn:Hm; simpl;
      [|by eexists _, _, _].
    eexists _, _, _. split; [done|]. intros _. by exists r, d.
Qed.

(** X23: [search_by_title] configures its fetcher without reading any
    file; the text it hands to [fetch] is [query.title=] and the title,
    and [_build_search_url] puts that whole text into the [query]
    parameter: the URL built for it has no parameter called
    [query.title]. *)
Theorem search_by_title_query {S} env title mailto kw (s : S) log :
  ∃ config call log',
    search_by_title env title mailto kw s log = (Ok (config, call), s, log')
    ∧ CrossrefSearchFetcher.fc_query call = "query.title=" +:+ title
    ∧ let param_str :=
        Url.urlencode
          (CrossrefSearchClient.url_params config
             (CrossrefSearchFetcher.fc_query call)
             (Some (CrossrefSearchFetcher.fc_params call))) in
      Url.values_of "query" param_str = ["query.title=" +:+ title]
      ∧ Url.values_of "query.title" param_str = [].
Proof.
  unfold search_by_title. unfold mbind at 1, M_bind at 1.
  destruct (crossref_init_total env (Some mailto) "~/Documents/dh4pmp/api_keys"
              kw s log) as (m & config & l' & -> & _ & _ & _ & Hparams).
  assert (dict_wf (cr_default_params config)) as Hwf.
  { rewrite Hparams. unfold dict_wf. simpl. apply NoDup_singleton. }
  eexists _, _, _. split; [done|]. split; [done|]. simpl. split.
  - rewrite values_of_urlencode by by apply url_params_wf.
    by rewrite url_params_query.
  - rewrite values_of_urlencode by by apply url_params_wf.
    rewrite url_params_other, dict_get_merge_wf by (done || apply NoDup_nil_2).
    simpl. by rewrite Hparams.
Qed.

(** ** The Scopus key files *)

Section load_api_key.
Context {S : Type} (env : Env).

Let handler (path : string) (e : exn) : M S (flow pyval) :=
  emit (LogWarning ("Error loading " +:+ path));; mret Next.


End load_api_key.


(** X25: the key loader of the abstract fetcher checks less: it returns
    whatever the first file with an [X-ELS-APIKey] has under it, an empty
    key too, and a file that cannot be read makes it raise that error. *)
Theorem abstract_load_api_key_unchecked env :
  (∀ d key, file env "scopus.yaml" = Yaml (PDict d) →
            dict_get "X-ELS-APIKey" d = Some key →
            ScopusAbstractFetcher._load_api_key env = Ok key)
  ∧ (∀ e, file env "scopus.yaml" = Unreadable e →
          ScopusAbstractFetcher._load_api_key env = Raise e).
Proof.
  unfold ScopusAbstractFetcher._load_api_key, ScopusAbstractFetcher.key_paths.
  split.
  - intros d key Hf Hk. simpl. unfold path_exists, load_yaml. rewrite Hf. simpl.
    destruct d as [|kv d]; [done|]. simpl.
    unfold dict_in, dict_item. by rewrite Hk.
  - intros e Hf. simpl. unfold path_exists, load_yaml. by rewrite Hf.
Qed.

Lemma abstract_load_api_key_unchecked_witness :
  ScopusAbstractFetcher._load_api_key
    (mkEnv "/home/user"
       (λ path, if decide (path = "scopus.yaml")
                then Yaml (PDict [("X-ELS-APIKey", PStr "")])
                else Yaml (PDict [("X-ELS-APIKey", PStr "k3y")])))
  = Ok (PStr "")
  ∧ (∃ r log',
       ScopusSearchFetcher._load_api_key
         (mkEnv "/home/user"
            (λ path, if decide (path = "scopus.yaml")
                     then Yaml (PDict [("X-ELS-APIKey", PStr "")])
                     else Yaml (PDict [("X-ELS-APIKey", PStr "k3y")])))
         "~/keys" () [] = (r, (), log') ∧ r = Ok (PStr "k3y"))
  ∧ ScopusAbstractFetcher._load_api_key
      (mkEnv "/home/user"
         (λ path, if decide (path = "scopus.yaml")
                  then Unreadable (YAMLError "mapping values are not allowed here")
                  else Absent))
    = Raise (YAMLError "mapping values are not allowed here").
Proof.
  split_and!.
  - by apply (proj1 (abstract_load_api_key_unchecked _)
                [("X-ELS-APIKey", PStr "")]).
  - by eexists _, _.
  - by apply (proj2 (abstract_load_api_key_unchecked _)).
Defined.

(** ** Fetching abstracts through the cache *)

(** A fetch that goes to the network never raises; it asks for one URL
    and writes at most the entry of its own identifier. *)
Lemma fetch_from_api_total http eid w log :
  ∃ v cache' log',
    ScopusAbstractFetcher.fetch_from_api http eid w log
    = (Ok v, mkWorld cache' (sent w ++ [abstract_url eid]), log')
    ∧ (cache' = cache_of w ∧ v = PNone
       ∨ cache' = <[eid := [mkAbstractRow eid v]]> (cache_of w)
         ∧ ∃ r, http (abstract_url eid) = Ok r ∧ resp_ok r = true
                ∧ resp_json r = Ok v).
Proof.
  unfold ScopusAbstractFetcher.fetch_from_api, try_except,
    ScopusAbstractFetcher.fetch_body, ScopusAbstractFetcher.requests_get,
    ScopusAbstractFetcher.cache_store.
  fold (abstract_url eid).
  unfold mbind, M_bind, lift, modify, emit, mret, M_ret. simpl.
  destruct (http (abstract_url eid)) as [r|e] eqn:Hhttp; simpl;
    [|eexists _, _, _; split; [done|by left]].
  destruct (resp_ok r) eqn:Hok; simpl;
    [|eexists _, _, _; split; [done|by left]].
  destruct (resp_json r) as [data|e] eqn:Hjson; simpl;
    [|eexists _, _, _; split; [done|by left]].
  eexists _, _, _. split; [done|]. right. split; [done|]. by exists r.
Qed.

(** An entry of the cache with at least one row answers the fetch: the
    payload of its first row is returned, no request is made and nothing
    changes. *)
Lemma abstract_fetch_cached http eid w log first rest :
  cache_of w !! eid = Some (first :: rest) →
  ScopusAbstractFetcher.fetch http eid false w log = (Ok (ar_data first), w, log).
Proof.
  intros Hc. unfold ScopusAbstractFetcher.fetch, ScopusAbstractFetcher.cache_get.
  unfold mbind, M_bind, read, mret, M_ret. simpl. by rewrite Hc.
Qed.

Lemma abstract_fetch_cached_witness :
  ScopusAbstractFetcher.fetch (λ _, Raise (OSError "network is unreachable"))
    "2-s2.0-85012345678" false
    (mkWorld {[ "2-s2.0-85012345678" :=
                  [mkAbstractRow "2-s2.0-85012345678"
                     (PDict [("abstracts-retrieval-response", PDict [])])] ]} [])
    []
  = (Ok (PDict [("abstracts-retrieval-response", PDict [])]),
     mkWorld {[ "2-s2.0-85012345678" :=
                  [mkAbstractRow "2-s2.0-85012345678"
                     (PDict [("abstracts-retrieval-response", PDict [])])] ]} [],
     []).
Proof.
  by apply (abstract_fetch_cached _ "2-s2.0-85012345678" _ []
              (mkAbstractRow "2-s2.0-85012345678"
                 (PDict [("abstracts-retrieval-response", PDict [])])) []).
Defined.



(** X28: a fetch never raises.  It makes at most one request, for the
    URL of its identifier; it leaves every other entry of the cache as it
    was; and when the request fails (an exception, a response that is not
    [ok], a body that is not JSON) it returns none and stores nothing. *)
Theorem abstract_fetch_total http eid force_refresh w log :
  ∃ v w' log',
    ScopusAbstractFetcher.fetch http eid force_refresh w log = (Ok v, w', log')
    ∧ (sent w' = sent w ∨ sent w' = sent w ++ [abstract_url eid])
    ∧ (∀ other, other ≠ eid → cache_of w' !! other = cache_of w !! other)
    ∧ ((∀ r, http (abstract_url eid) = Ok r →
             resp_ok r = false ∨ ∃ e, resp_json r = Raise e) →
       cache_of w' = cache_of w
       ∧ (force_refresh = true ∨ cache_miss w eid → v = PNone)).
Proof.
  assert (∃ v w' log',
            ScopusAbstractFetcher.fetch_from_api http eid w log = (Ok v, w', log')
            ∧ (sent w' = sent w ∨ sent w' = sent w ++ [abstract_url eid])
            ∧ (∀ other, other ≠ eid → cache_of w' !! other = cache_of w !! other)
            ∧ ((∀ r, http (abstract_url eid) = Ok r →
                     resp_ok r = false ∨ ∃ e, resp_json r = Raise e) →
               cache_of w' = cache_of w ∧ v = PNone)) as Hapi.
  { destruct (fetch_from_api_total http eid w log)
      as (v & cache' & log' & -> & Hcases).
    eexists _, _, _. split; [done|]. simpl. split; [by right|].
    destruct Hcases as [[-> ->]|[-> (r & Hr & Hok & Hjson)]].
    - by split.
    - split; [intros other Hne; by apply lookup_insert_ne|].
      intros Hfail. destruct (Hfail r Hr) as [?|[e ?]]; congruence. }
  unfold ScopusAbstractFetcher.fetch, ScopusAbstractFetcher.cache_get.
  destruct force_refresh; simpl.
  - destruct Hapi as (v & w' & log' & -> & ? & ? & Hfail).
    eexists _, _, _. split_and!; [done..|].
    intros Hf. destruct (Hfail Hf). by split.
  - unfold mbind, M_bind, read, mret, M_ret. simpl.
    destruct (cache_of w !! eid) as [[|first rest]|] eqn:Hc.
    + destruct Hapi as (v & w' & log' & -> & ? & ? & Hfail).
      eexists _, _, _. split_and!; [done..|].
      intros Hf. destruct (Hfail Hf). by split.
    + eexists _, _, _. split_and!; [done|by left|done|].
      intros _. split; [done|]. intros [?|[?|?]]; congruence.
    + destruct Hapi as (v & w' & log' & -> & ? & ? & Hfail).
      eexists _, _, _. split_and!; [done..|].
      intros Hf. destruct (Hfail Hf). by split.
Qed.

Lemma fetch_one_request http eid force_refresh w log :
  ∃ v w' log',
    ScopusAbstractFetcher.fetch http eid force_refresh w log = (Ok v, w', log')
    ∧ (length (sent w') ≤ length (sent w) + 1)%nat.
Proof.
  assert (∃ v w' log',
            ScopusAbstractFetcher.fetch_from_api http eid w log = (Ok v, w', log')
            ∧ (length (sent w') ≤ length (sent w) + 1)%nat) as Hapi.
  { destruct (fetch_from_api_total http eid w log)
      as (v & cache' & log' & -> & _).
    eexists _, _, _. split; [done|]. simpl. rewrite length_app. simpl. lia. }
  unfold ScopusAbstractFetcher.fetch, ScopusAbstractFetcher.cache_get.
  destruct force_refresh; simpl; [done|].
  unfold mbind, M_bind, read, mret, M_ret. simpl.
  destruct (cache_of w !! eid) as [[|first rest]|]; [done| |done].
  eexists _, _, _. split; [done|]. lia.
Qed.

Lemma provide_loop_spec http eids force_refresh results w log :
  ∃ rows w' log',
    ScopusAbstractFetcher.provide_loop http eids force_refresh results w log
    = (Ok (results ++ rows), w', log')
    ∧ (ar_ID <$> rows) `sublist_of` eids
    ∧ Forall (λ r, ar_data r ≠ PNone) rows
    ∧ (length (sent w') ≤ length (sent w) + length eids)%nat.
Proof.
  revert results w log.
  induction eids as [|eid eids IH]; intros results w log; simpl.
  - exists [], w, log. rewrite app_nil_r. split_and!; [done|done|done|lia].
  - destruct (fetch_one_request http eid force_refresh w log)
      as (v & w1 & l1 & Hfetch & Hlen).
    unfold mbind at 1, M_bind at 1. rewrite Hfetch.
    destruct (is_none v) eqn:Hv.
    + destruct (IH results w1 l1) as (rows & w' & log' & -> & Hsub & Hall & Hn).
      exists rows, w', log'. split_and!; [done|by apply sublist_cons|done|lia].
    + destruct (IH (results ++ [mkAbstractRow eid v]) w1 l1)
        as (rows & w' & log' & -> & Hsub & Hall & Hn).
      exists (mkAbstractRow eid v :: rows), w', log'.
      rewrite <-app_assoc. split_and!; [done| | |lia].
      * rewrite fmap_cons. by apply sublist_skip.
      * apply Forall_cons. split; [|done]. simpl. by destruct v.
Qed.

(** X29: [provide] never raises.  Its rows come in the order of the
    identifiers asked for, one for each identifier whose fetch gave
    something other than none and none for the others; no row has a null
    payload; and it makes at most one request for each identifier. *)
Theorem abstract_provide_rows http eids force_refresh w log :
  ∃ rows w' log',
    ScopusAbstractFetcher.provide http eids force_refresh w log
    = (Ok rows, w', log')
    ∧ (ar_ID <$> rows) `sublist_of` eids
    ∧ Forall (λ r, ar_data r ≠ PNone) rows
    ∧ (length (sent w') ≤ length (sent w) + length eids)%nat.
Proof.
  unfold ScopusAbstractFetcher.provide.
  destruct (provide_loop_spec http eids force_refresh [] w log)
    as (rows & w' & log' & Hrun & Hrest).
  by exists rows, w', log'.
Qed.

(** ** Purging twice *)

Lemma clean_loop_nothing_doomed config items removed cache log :
  (∀ q, ¬ doomed (sc_max_results_per_query config) cache q) →
  ScopusSearchFetcher.clean_loop config items removed cache log
  = (Ok removed, cache, log).
Proof.
  intros Hnone. induction items as [|item rest IH]; simpl; [done|].
  unfold mbind at 1, M_bind at 1, LocalCache.get.
  unfold mbind at 1, M_bind at 1, read, mret at 1, M_ret at 1.
  destruct (cache !! item) as [data|] eqn:Hitem; [|done].
  destruct (0 <? Z.of_nat (length _)) eqn:Htest; [|done].
  apply problematic_capped in Htest. destruct (Hnone item). by exists data.
Qed.

(** X30: purging is idempotent: after [clean_max_hits] the cache holds
    no capped entry, and a second [clean_max_hits] returns normally,
    deletes nothing and logs nothing. *)
Theorem clean_max_hits_idempotent config cache log :
  ∃ cache' log',
    ScopusSearchFetcher.clean_max_hits config cache log = (Ok (), cache', log')
    ∧ (∀ query data, cache' !! query = Some data →
                     cache !! query = Some data
                     ∧ ¬ capped (sc_max_results_per_query config) data)
    ∧ ScopusSearchFetcher.clean_max_hits config cache' log'
      = (Ok (), cache', log').
Proof.
  assert (∀ c l, ∃ removed c',
            ScopusSearchFetcher.clean_max_hits config c l
            = when (0 <? removed)
                (emit (LogInfo ("Removed " +:+ pretty removed
                                +:+ " queries that exceeded max_hits"))) c' l
            ∧ ScopusSearchFetcher.clean_loop config (map_to_list c).*1 0 c l
              = (Ok removed, c', l)) as Hrun.
  { intros c l. unfold ScopusSearchFetcher.clean_max_hits.
    unfold mbind at 1, M_bind at 1, LocalCache.list_queries.
    unfold mbind at 1, M_bind at 1, read, mret at 1, M_ret at 1.
    destruct (clean_loop_spec config (map_to_list c).*1 0 c l)
      as (removed & c' & Hloop & _).
    exists removed, c'. unfold mbind at 1, M_bind at 1. by rewrite Hloop. }
  destruct (clean_loop_spec config (map_to_list cache).*1 0 cache log)
    as (removed & cache' & Hloop & Hdel & Hkeep).
  destruct (Hrun cache log) as (removed0 & cache0 & -> & Hloop0).
  rewrite Hloop in Hloop0. injection Hloop0 as <- <-.
  assert (∀ query data, cache' !! query = Some data →
            cache !! query = Some data
            ∧ ¬ capped (sc_max_results_per_query config) data) as Hclean.
  { intros query data Hq.
    destruct (cache !! query) as [data0|] eqn:Hc.
    - assert (¬ capped (sc_max_results_per_query config) data0) as Hnot.
      { intros Hcap. rewrite Hdel in Hq; [done| |by exists data0].
        apply list_elem_of_fmap. exists (query, data0).
        split; [done|]. by apply elem_of_map_to_list. }
      rewrite Hkeep in Hq.
      + rewrite Hc in Hq. by injection Hq as <-.
      + intros [_ (d & Hd & Hcap)]. congruence.
    - rewrite Hkeep in Hq; [congruence|].
      intros [_ (d & Hd & _)]. congruence. }
  assert (∃ log', when (0 <? removed)
            (emit (LogInfo ("Removed " +:+ pretty removed
                            +:+ " queries that exceeded max_hits"))) cache' log
          = (Ok (), cache', log')) as [log' ->].
  { unfold when. destruct (0 <? removed); by eexists. }
  exists cache', log'. split_and!; [done|done|].
  destruct (Hrun cache' log') as (removed1 & cache1 & -> & Hloop1).
  rewrite clean_loop_nothing_doomed in Hloop1.
  - by injection Hloop1 as <- <-.
  - intros q (data & Hq & Hcap). by destruct (Hclean q data Hq).
Qed.

(** ** The Scopus search URL *)

Lemma scopus_raw_items (d : dict pyval) :
  Forall plain_item d →
  map (λ kv : string * pyval, kv.1 +:+ "=" +:+ py_str kv.2) d = map encode_item d.
Proof.
  induction 1 as [|kv d [Hk Hv] _ IH]; [done|]. simpl. rewrite IH. f_equal.
  unfold encode_item. unfold url_safe in *. by rewrite Hk, Hv.
Qed.

(** X26: the Scopus URL escapes the query text and nothing else.  When
    the view and the parameters need no escaping, the URL decodes to the
    query text under [query] (whatever characters it holds), the
    configured view under [view], and then the default parameters
    overridden by the caller's; a [query] or [view] among the caller's
    parameters comes after these, as a second parameter of that name. *)
Theorem scopus_build_search_url_parameters config query params :
  Str.mem "#" (sc_base_url config) = false →
  Str.mem "?" (sc_base_url config) = false →
  url_safe (sc_view config) →
  Forall plain_item (dict_merge (sc_default_params config) (default [] params)) →
  Url.parse_qsl
    (Url.query (ScopusSearchClient._build_search_url config query params))
  = ("query", query) :: ("view", sc_view config)
    :: (decoded_item <$> dict_merge (sc_default_params config) (default [] params)).
Proof.
  intros Hhash Hq Hview Hplain.
  unfold ScopusSearchClient._build_search_url.
  rewrite (scopus_raw_items _ Hplain).
  set (d := dict_merge _ _).
  change (Str.join "&" (map encode_item d)) with (Url.urlencode d).
  assert (sc_base_url config +:+ "?query=" +:+ Url.quote_plus query
            +:+ "&view=" +:+ sc_view config +:+ "&" +:+ Url.urlencode d
          = sc_base_url config
              +:+ String "?"
                    (encode_item ("query", PStr query)
                       +:+ String "&"
                             (encode_item ("view", PStr (sc_view config))
                                +:+ String "&" (Url.urlencode d)))) as ->.
  { unfold encode_item. cbn [fst snd py_str]. unfold url_safe in Hview.
    rewrite Hview. reflexivity. }
  unfold Url.query. rewrite (split1_no_sep "#").
  2:{ rewrite mem_app, Hhash, mem_cons, decide_False by done.
      rewrite mem_app, encode_item_plain, mem_cons, decide_False by (done || sep_mem).
      rewrite mem_app, encode_item_plain, mem_cons, decide_False by (done || sep_mem).
      apply urlencode_plain. sep_mem. }
  cbn [fst]. rewrite split1_app by done. cbn [snd default from_option id].
  unfold Url.parse_qsl.
  rewrite !split_app by (apply encode_item_plain; sep_mem).
  rewrite !filter_cons_True by apply encode_item_nonempty.
  rewrite !map_cons, !parse_pair_encode_item.
  change (map Url.parse_pair (filter _ (Str.split "&" (Url.urlencode d))))
    with (Url.parse_qsl (Url.urlencode d)).
  by rewrite parse_qsl_urlencode.
Qed.

Lemma scopus_build_search_url_parameters_witness :
  Url.parse_qsl
    (Url.query
       (ScopusSearchClient._build_search_url scopus_config
          "TITLE(R&D) AND PUBYEAR > 2020"
          (Some [("count", PInt 50); ("sort", PStr "-citedby-count")])))
  = [("query", "TITLE(R&D) AND PUBYEAR > 2020"); ("view", "COMPLETE");
     ("count", "50"); ("sort", "-citedby-count")].
Proof.
  apply (scopus_build_search_url_parameters scopus_config
           "TITLE(R&D) AND PUBYEAR > 2020"
           (Some [("count", PInt 50); ("sort", PStr "-citedby-count")]));
    [reflexivity|reflexivity|reflexivity|].
  repeat (apply Forall_cons; split; [by split|]). apply Forall_nil_2.
Defined.
